(** * pymultiscale: the coefficient-editing layer of [modwt.py]

    A shallow embedding of [src/pymultiscale/modwt.py] (the functional
    entry point [modwt_transform] and the methods of the class
    [UndecimatedWaveletTransform]) together with the properties its
    specification states about them.

    Conventions of the embedding.

    - A numpy array is a shape and the list of its elements in column-major
      (Fortran) order, the order in which [ravel(order = 'f')] lists them.
    - A coefficient bundle is a Python list of arrays.  The arrays of one
      bundle are distinct objects, as the transform yields them, so the
      bundle is the list of their current contents.
    - Every method that edits a bundle in place is a computation in the
      monad [M]: it threads the bundle and ends in a returned value or in a
      raised exception.  The bundle it leaves is kept in both cases, as
      an in-place edit survives the exception that follows it.
    - The element type is a parameter (class [Scalar]).  Two instances are
      given: [float] (IEEE 754 binary64, which is numpy's [float64]) to run
      the code on concrete inputs, and [R] for laws of exact arithmetic.
    - The caller's [threshold_func] is a function of its three arguments:
      it decides a center and a threshold and edits nothing.
    - The transform engine [pymultiscale.dwt] is not part of the module:
      where it is called it is a parameter; where a property is about what
      the engine does with the number of bands it is handed, the engine is
      the one the specification describes ([spec_engine]).
    - Arithmetic between two arrays is modelled for operands of one shape;
      numpy's broadcasting is not. *)

From Stdlib Require Import PrimFloat.
From Stdlib Require Uint63.
From Stdlib Require Import ZArith List Lia Reals Lra String.
From stdpp Require Import base option list.
Import ListNotations.

Set Default Proof Using "Type".
Local Open Scope nat_scope.

(* ------------------------------------------------------------------ *)
(** ** Exceptions and results                                          *)
(* ------------------------------------------------------------------ *)

(** The Python exceptions the modelled code can end in. *)
Inductive exn : Type :=
  | AssertionError
  | IndexError
  | ValueError
  | OverflowError
  | ZeroDivisionError
  | NotImplementedError.

Inductive result (A : Type) : Type :=
  | Ok (a : A)
  | Raise (e : exn).
Arguments Ok {A} a.
Arguments Raise {A} e.

#[export] Instance result_ret : MRet result := fun A a => Ok a.
#[export] Instance result_bind : MBind result := fun A B k r =>
  match r with
  | Ok a => k a
  | Raise e => Raise e
  end.

(* ------------------------------------------------------------------ *)
(** ** Scalars                                                         *)
(* ------------------------------------------------------------------ *)

(** The arithmetic and the comparisons [modwt.py] applies to array
    elements. *)
Class Scalar (F : Type) : Type := {
  fzero : F;
  fadd : F -> F -> F;
  fsub : F -> F -> F;
  fmul : F -> F -> F;
  fdiv : F -> F -> F;
  fneg : F -> F;
  fabs : F -> F;
  fsqrt : F -> F;
  fltb : F -> F -> bool;
  fleb : F -> F -> bool
}.

(** numpy's [float64]. *)
#[export] Instance float_Scalar : Scalar float := {|
  fzero := 0%float;
  fadd := PrimFloat.add;
  fsub := PrimFloat.sub;
  fmul := PrimFloat.mul;
  fdiv := PrimFloat.div;
  fneg := PrimFloat.opp;
  fabs := PrimFloat.abs;
  fsqrt := PrimFloat.sqrt;
  fltb := PrimFloat.ltb;
  fleb := PrimFloat.leb
|}.

#[export] Instance Rlt_decision : RelDecision Rlt := Rlt_dec.
#[export] Instance Rle_decision : RelDecision Rle := Rle_dec.

(** Exact arithmetic.  Division is the division of the reals, which is
    total: the source's division by zero (an infinity, a NaN or
    [ZeroDivisionError]) has no counterpart here, and the laws of exact
    arithmetic that scale a threshold are stated for a scaling factor that
    is not zero. *)
#[export] Instance R_Scalar : Scalar R := {|
  fzero := 0%R;
  fadd := Rplus;
  fsub := Rminus;
  fmul := Rmult;
  fdiv := Rdiv;
  fneg := Ropp;
  fabs := Rabs;
  fsqrt := sqrt;
  fltb := fun x y => bool_decide (x < y)%R;
  fleb := fun x y => bool_decide (x <= y)%R
|}.

(* ------------------------------------------------------------------ *)
(** ** Arrays                                                          *)
(* ------------------------------------------------------------------ *)

Section Arrays.
Context {F : Type}.

(** [data] lists the elements in column-major order. *)
Record ndarray : Type := mk_ndarray {
  shape : list nat;
  data : list F
}.

(** [np.prod(shape)]. *)
Definition prod_shape (s : list nat) : nat := fold_right Nat.mul 1 s.

(** An array has as many elements as its shape says. *)
Definition wf_array (a : ndarray) : Prop :=
  length (data a) = prod_shape (shape a).

(** An elementwise edit: [f] applied to every element. *)
Definition arr_map (f : F -> F) (a : ndarray) : ndarray :=
  mk_ndarray (shape a) (map f (data a)).

(** The coordinate along [axis] of the element at flat position [i]. *)
Definition coord (s : list nat) (axis i : nat) : nat :=
  (i / prod_shape (firstn axis s)) mod (nth axis s 0).

(** The shape with [axis] removed. *)
Definition drop_axis (s : list nat) (axis : nat) : list nat :=
  firstn axis s ++ skipn (S axis) s.

(** The elements of [l], numbered from [i], whose coordinate along
    [axis] is [p]. *)
Fixpoint plane_elems (s : list nat) (axis p i : nat) (l : list F) : list F :=
  match l with
  | [] => []
  | x :: l' =>
      if coord s axis i =? p
      then x :: plane_elems s axis p (S i) l'
      else plane_elems s axis p (S i) l'
  end.

(** [f] applied to the elements of [l], numbered from [i], whose
    coordinate along [axis] is [p]; the others are kept. *)
Fixpoint plane_map (s : list nat) (axis p : nat) (f : F -> F) (i : nat)
    (l : list F) : list F :=
  match l with
  | [] => []
  | x :: l' =>
      (if coord s axis i =? p then f x else x)
        :: plane_map s axis p f (S i) l'
  end.

(** The contents of the view [a[p,:,:]] (axis 0), [a[:,p,:]] (axis 1) or
    [a[:,:,p]] (axis 2). *)
Definition get_plane (axis p : nat) (a : ndarray) : ndarray :=
  mk_ndarray (drop_axis (shape a) axis)
             (plane_elems (shape a) axis p 0 (data a)).

(** An elementwise edit made through that view. *)
Definition map_plane (axis p : nat) (f : F -> F) (a : ndarray) : ndarray :=
  mk_ndarray (shape a) (plane_map (shape a) axis p f 0 (data a)).

(** [s[i]] for a Python tuple [s]: a negative index counts from the end. *)
Definition tuple_index (s : list nat) (i : Z) : result nat :=
  let n := Z.of_nat (length s) in
  if (0 <=? i)%Z && (i <? n)%Z then Ok (nth (Z.to_nat i) s 0)
  else if (- n <=? i)%Z && (i <? 0)%Z then Ok (nth (Z.to_nat (n + i)) s 0)
  else Raise IndexError.

(** The axis the three-index expressions of the source slice along: the
    source tests [within_axis == 0], then [within_axis == 1], and writes
    [[:,:,p]] otherwise. *)
Definition slice_axis (within_axis : Z) : nat :=
  if (within_axis =? 0)%Z then 0
  else if (within_axis =? 1)%Z then 1
  else 2.

(** Whether the three-index expression with [p] at [axis] can be taken:
    numpy raises [IndexError] on an array of fewer than three dimensions
    and on an index out of bounds. *)
Definition plane_ok (axis p : nat) (a : ndarray) : bool :=
  (3 <=? length (shape a)) && (p <? nth axis (shape a) 0).

End Arrays.
Arguments ndarray F : clear implicits.

Abbreviation bundle F := (list (ndarray F)).

(* ------------------------------------------------------------------ *)
(** ** In-place edits of a bundle                                      *)
(* ------------------------------------------------------------------ *)

Section Monad.
Context {F : Type}.

(** A computation on the bundle [coefs]: the bundle it leaves, and the
    value it returns or the exception it raises. *)
Definition M (A : Type) : Type := bundle F -> bundle F * result A.

#[export] Instance M_ret : MRet M := fun A a s => (s, Ok a).
#[export] Instance M_bind : MBind M := fun A B k m s =>
  match m s with
  | (s', Ok a) => k a s'
  | (s', Raise e) => (s', Raise e)
  end.

(** [raise e]. *)
Definition raise {A} (e : exn) : M A := fun s => (s, Raise e).

(** A computation that leaves the bundle alone. *)
Definition lift {A} (r : result A) : M A := fun s => (s, r).

(** [len(coefs)]. *)
Definition len : M nat := fun s => (s, Ok (length s)).

(** [coefs[b]], read. *)
Definition get_item (b : nat) : M (ndarray F) := fun s =>
  match s !! b with
  | Some a => (s, Ok a)
  | None => (s, Raise IndexError)
  end.

(** [coefs[b]] edited in place, or rebound, to [f coefs[b]]. *)
Definition edit_item (b : nat) (f : ndarray F -> ndarray F) : M unit :=
  fun s =>
    match s !! b with
    | Some a => (<[b := f a]> s, Ok tt)
    | None => (s, Raise IndexError)
    end.

(** The view [A] of the plane [p] of [coefs[b]], taken; its contents. *)
Definition get_view (b axis p : nat) : M (ndarray F) :=
  cb ← get_item b;
  if plane_ok axis p cb then mret (get_plane axis p cb)
  else raise IndexError.

(** An elementwise edit of the view [A]: it is an edit of [coefs[b]]. *)
Definition edit_view (b axis p : nat) (f : F -> F) : M unit :=
  edit_item b (map_plane axis p f).

(** [for i in idxs: acc = body(i, acc)]; an exception ends the loop. *)
Fixpoint for_each {A} (idxs : list nat) (body : nat -> A -> M A) (acc : A)
    : M A :=
  match idxs with
  | [] => mret acc
  | i :: rest => acc' ← body i acc; for_each rest body acc'
  end.

(** [for i in xrange(n): body(i)]. *)
Definition for_xrange (n : nat) (body : nat -> M unit) : M unit :=
  for_each (seq 0 n) (fun i _ => body i) tt.

End Monad.
Arguments M F A : clear implicits.

(* ------------------------------------------------------------------ *)
(** ** The functional entry point                                      *)
(* ------------------------------------------------------------------ *)

Section Transform.
Context {F : Type}.

(** The transform engine [pymultiscale.dwt] is compiled code outside the
    translated module: its three forward variants are parameters. *)
Variables modwt1 modwt2 modwt3 : ndarray F -> string -> Z -> result (bundle F).

(** [np.min(data.shape)]: a reduction over an empty tuple raises. *)
Definition np_min (s : list nat) : result nat :=
  match s with
  | [] => Raise ValueError
  | n :: s' => Ok (fold_right Nat.min n s')
  end.

(** [int(np.ceil(np.log2(m)) - 3)].  [np.log2(0)] is [-inf], which [int]
    refuses with [OverflowError]; for [m >= 1] the value is the integer
    [ceil(log2 m) - 3] (dimensions stay far below [2^49], where
    [np.log2] of a non-power of two can round to an integer). *)
Definition auto_num_bands (m : nat) : result Z :=
  if m =? 0 then Raise OverflowError
  else Ok (Z.log2_up (Z.of_nat m) - 3)%Z.




(** [modwt_transform(data, wavelet_type, num_bands)]. *)
Definition modwt_transform (data : ndarray F) (wavelet_type : string)
    (num_bands : option Z) : result (bundle F) :=
  let ndims := length (shape data) in
  num_bands ←
    match num_bands with
    | None =>
        m ← np_min (shape data);
        num_bands ← auto_num_bands m;
        if (0 <? num_bands)%Z then Ok num_bands else Raise AssertionError
    | Some num_bands => Ok num_bands
    end;
  match ndims with
  | 1 => modwt1 data wavelet_type num_bands
  | 2 => modwt2 data wavelet_type num_bands
  | 3 => modwt3 data wavelet_type num_bands
  | _ => Raise NotImplementedError
  end.

End Transform.

(* ------------------------------------------------------------------ *)
(** ** The class [UndecimatedWaveletTransform]                         *)
(* ------------------------------------------------------------------ *)

(** The attributes [__init__] stores. *)
Record UndecimatedWaveletTransform (F : Type) : Type := mk_UWT {
  wavelet_type : string;
  num_bands : option Z;
  img_shape : list nat;
  example_coefs : bundle F
}.
Arguments mk_UWT {F}.
Arguments wavelet_type {F}.
Arguments num_bands {F}.
Arguments img_shape {F}.
Arguments example_coefs {F}.

Section Methods.
Context {F : Type} `{Scalar F}.
Variables modwt1 modwt2 modwt3 : ndarray F -> string -> Z -> result (bundle F).

(** [np.zeros(img_shape)]. *)
Definition np_zeros (s : list nat) : ndarray F :=
  mk_ndarray s (repeat fzero (prod_shape s)).

(** [self.fwd(data)], with the attributes of [self] given. *)
Definition fwd (wt : string) (nb : option Z) (data : ndarray F)
    : result (bundle F) :=
  modwt_transform modwt1 modwt2 modwt3 data wt nb.

(** [__init__]: the probe transform of an all-zero array. *)
Definition init (img_shape : list nat) (wavelet_type : string)
    (num_bands : option Z) : result (UndecimatedWaveletTransform F) :=
  example_coefs ← fwd wavelet_type num_bands (np_zeros img_shape);
  Ok (mk_UWT wavelet_type num_bands img_shape example_coefs).

(** *** Flattening *)

(** [vec.ravel(order = 'f')]. *)
Definition ravel_f (a : ndarray F) : list F := data a.

(** [np.hstack] of one-dimensional arrays; it refuses an empty list. *)
Definition np_hstack (vs : list (list F)) : result (list F) :=
  match vs with
  | [] => Raise ValueError
  | _ => Ok (concat vs)
  end.

(** [coefs_to_vec(coefs)]. *)
Definition coefs_to_vec (coefs : bundle F) : result (list F) :=
  np_hstack (map ravel_f coefs).

(** [n] successive chunks of [sz] elements. *)
Fixpoint chunks (sz n : nat) (v : list F) : list (list F) :=
  match n with
  | 0 => []
  | S n' => firstn sz v :: chunks sz n' (skipn sz v)
  end.

(** [np.split(v, n)] for a one-dimensional [v]: [len(v) % n] is taken
    first, then the equal division is required. *)
Definition np_split (v : list F) (n : nat) : result (list (list F)) :=
  if n =? 0 then Raise ZeroDivisionError
  else if negb (length v mod n =? 0) then Raise ValueError
  else Ok (chunks (length v / n) n v).

(** [np.reshape(v, s, order = 'f')] for a one-dimensional [v]. *)
Definition reshape_f (s : list nat) (v : list F) : result (ndarray F) :=
  if length v =? prod_shape s then Ok (mk_ndarray s v)
  else Raise ValueError.

(** The list comprehension [[g(x) for x in l]], left to right. *)
Fixpoint map_result {A B} (g : A -> result B) (l : list A)
    : result (list B) :=
  match l with
  | [] => Ok []
  | x :: l' => y ← g x; ys ← map_result g l'; Ok (y :: ys)
  end.

(** [vec_to_coefs(coef_vec)]. *)
Definition vec_to_coefs (self : UndecimatedWaveletTransform F)
    (coef_vec : list F) : result (bundle F) :=
  parts ← np_split coef_vec (length (example_coefs self));
  map_result (reshape_f (img_shape self)) parts.

End Methods.

(* ------------------------------------------------------------------ *)
(** ** Update operators                                                *)
(* ------------------------------------------------------------------ *)

Section Updates.
Context {F : Type} `{Scalar F}.

(** An arithmetic operator between two arrays.  The arrays of a bundle
    share one shape; operands of unequal shapes end in [ValueError] here,
    where numpy would first try to broadcast them: the definition is the
    source's on operands of equal shape, and what is stated through it is
    stated for such operands. *)
Definition arr_zip (f : F -> F -> F) (a b : ndarray F)
    : result (ndarray F) :=
  if decide (shape a = shape b)
  then Ok (mk_ndarray (shape a) (zip_with f (data a) (data b)))
  else Raise ValueError.

(** [a.sum()], accumulated from [0.0]. *)
Definition arr_sum (a : ndarray F) : F := fold_left fadd (data a) fzero.

(** [np.square(a)]. *)
Definition np_square (a : ndarray F) : ndarray F :=
  arr_map (fun x => fmul x x) a.

(** [l[b]] for a list the method only reads. *)
Definition item (l : bundle F) (b : nat) : M F (ndarray F) :=
  match l !! b with
  | Some a => mret a
  | None => raise IndexError
  end.

(** [update(coefs, update, alpha)].  The method returns the pair of
    [coefs] itself, which is the bundle the computation leaves, and
    [update_norm], which is the value returned here. *)
Definition update (upd : bundle F) (alpha : F) : M F F :=
  n ← len;
  if negb (n =? length upd) then raise AssertionError
  else
    update_squared_sum ←
      for_each (seq 0 n) (fun b update_squared_sum =>
        u ← item upd b;
        let delta := arr_map (fmul alpha) u in
        cb ← get_item b;
        sum ← lift (arr_zip fadd cb delta);
        edit_item b (fun _ => sum);;
        mret (fadd update_squared_sum (arr_sum (np_square delta))))
        fzero;
    let update_norm := fsqrt update_squared_sum in
    mret update_norm.

(** [multiplicative_update(coefs, numerator, denominator, normalization,
    alpha)]; the list returned is [coefs] itself. *)
Definition multiplicative_update
    (numerator denominator normalization : bundle F) (alpha : F)
    : M F unit :=
  n ← len;
  if negb ((n =? length numerator)
           && (length numerator =? length denominator))
  then raise AssertionError
  else
    for_xrange n (fun b =>
      cb ← get_item b;
      nu ← item numerator b;
      t1 ← lift (arr_zip fmul cb nu);
      no ← item normalization b;
      t2 ← lift (arr_zip fdiv t1 no);
      de ← item denominator b;
      let t3 := arr_map (fun x => fadd x alpha) de in
      t4 ← lift (arr_zip fdiv t2 t3);
      edit_item b (fun _ => t4)).

End Updates.

(* ------------------------------------------------------------------ *)
(** ** Band editors                                                    *)
(* ------------------------------------------------------------------ *)

Section BandEditors.
Context {F : Type} `{Scalar F}.

(** [int(np.floor(b/7))]: [b/7] is the integer quotient. *)
Definition band_level (b : nat) : nat := b / 7.

(** A numpy [int64], wrapped around. *)
Definition wrap_int64 (z : Z) : Z :=
  ((z + 2 ^ 63) mod 2 ^ 64 - 2 ^ 63)%Z.

(** [np.power(2, band_level + 1)]. *)
Definition roll_offset (band_level : nat) : Z :=
  wrap_int64 (2 ^ (Z.of_nat band_level + 1)).

(** The plane index handed to [threshold_func]: lines 264 to 269. *)
Definition adjusted_plane (num_planes p band_level : nat) : Z :=
  let adjusted_plane := wrap_int64 (Z.of_nat p - roll_offset band_level) in
  let adjusted_plane :=
    if (Z.of_nat num_planes <=? adjusted_plane)%Z
    then wrap_int64 (adjusted_plane - Z.of_nat num_planes)
    else adjusted_plane in
  let adjusted_plane :=
    if (adjusted_plane <? 0)%Z
    then wrap_int64 (adjusted_plane + Z.of_nat num_planes)
    else adjusted_plane in
  adjusted_plane.

(** [band_threshold /= scaling_factor], when a factor is given. *)
Definition scale_threshold (scaling_factor : option F) (t : F) : F :=
  match scaling_factor with
  | Some s => fdiv t s
  | None => t
  end.

(** The four masked assignments, each as the edit of one element. *)

(** [A[np.where(np.abs(A - c) < t)] = 0.0]. *)
Definition gate_step (c t : F) (x : F) : F :=
  if fltb (fabs (fsub x c)) t then fzero else x.

(** [A[np.where(A > t)] -= t]. *)
Definition shrink_above (t : F) (x : F) : F :=
  if fltb t x then fsub x t else x.

(** [A[np.where(np.abs(A) <= t)] = 0.0]. *)
Definition zero_within (t : F) (x : F) : F :=
  if fleb (fabs x) t then fzero else x.

(** [A[np.where(A < -t)] += t]. *)
Definition shrink_below (t : F) (x : F) : F :=
  if fltb x (fneg t) then fadd x t else x.

(** [threshold_by_band(coefs, threshold_func, skip_bands, within_axis,
    scaling_factor)]; the list returned is [coefs] itself. *)
Definition threshold_by_band
    (threshold_func : ndarray F -> nat -> option Z -> F * F)
    (skip_bands : list nat) (within_axis : option Z)
    (scaling_factor : option F) : M F unit :=
  c0 ← get_item 0;
  ndirections ←
    match length (shape c0) with
    | 1 => mret 1
    | 2 => mret 3
    | 3 => mret 7
    | _ => raise NotImplementedError
    end;
  n ← len;
  for_xrange (n - 1) (fun b =>
    let band_level := band_level b in
    if bool_decide (band_level ∈ skip_bands) then mret tt
    else
      match within_axis with
      | Some within_axis =>
          cb ← get_item b;
          num_planes ← lift (tuple_index (shape cb) within_axis);
          for_xrange num_planes (fun p =>
            let axis := slice_axis within_axis in
            A ← get_view b axis p;
            let adjusted_plane := adjusted_plane num_planes p band_level in
            let '(band_center, band_threshold) :=
              threshold_func A band_level (Some adjusted_plane) in
            let band_threshold :=
              scale_threshold scaling_factor band_threshold in
            edit_view b axis p (gate_step band_center band_threshold);;
            edit_view b axis p (shrink_above band_threshold);;
            edit_view b axis p (zero_within band_threshold);;
            edit_view b axis p (shrink_below band_threshold))
      | None =>
          cb ← get_item b;
          let '(band_center, band_threshold) :=
            threshold_func cb band_level None in
          let band_threshold :=
            scale_threshold scaling_factor band_threshold in
          edit_item b (arr_map (shrink_above band_threshold));;
          edit_item b (arr_map (zero_within band_threshold));;
          edit_item b (arr_map (shrink_below band_threshold))
      end).

(** [low_pass_spatial_filter(coefs, within_axis, range, max_band)]; the
    list returned is [coefs] itself. *)
Definition low_pass_spatial_filter (within_axis : Z) (range : Z * Z)
    (max_band : Z) : M F unit :=
  n ← len;
  let num_bands := n - 1 in
  for_xrange num_bands (fun b =>
    let band_level := band_level b in
    cb ← get_item b;
    num_planes ← lift (tuple_index (shape cb) within_axis);
    for_xrange num_planes (fun p =>
      let axis := slice_axis within_axis in
      A ← get_view b axis p;
      if (range.1 <? Z.of_nat p)%Z && (Z.of_nat p <? range.2)%Z
         && (Z.of_nat band_level <? max_band)%Z
      then edit_view b axis p (fun _ => fzero)
      else mret tt)).

End BandEditors.

(* ------------------------------------------------------------------ *)
(** ** Notions the properties are stated with                          *)
(* ------------------------------------------------------------------ *)

Section Notions.
Context {F : Type} `{Scalar F}.

(** [m] keeps the invariant [I] of the bundle, whether it returns or
    raises, and what it returns satisfies [Q]. *)
Definition keeps {A} (I : bundle F -> Prop) (m : M F A) (Q : A -> Prop)
    : Prop :=
  forall s, I s -> I (m s).1 /\ forall a, (m s).2 = Ok a -> Q a.

(** The low-pass band is the last entry. *)
Definition same_last (s0 : bundle F) : bundle F -> Prop :=
  fun s => length s = length s0 /\ last s = last s0.

(** [c + alpha * u], elementwise. *)
Definition add_scaled (alpha : F) (c u : ndarray F) : ndarray F :=
  mk_ndarray (shape c) (zip_with fadd (data c) (map (fmul alpha) (data u))).

(** The sum of the squares of the elements of [alpha * u], added to [acc]. *)
Definition add_squares (alpha : F) (acc : F) (u : ndarray F) : F :=
  fadd acc (arr_sum (np_square (arr_map (fmul alpha) u))).

(** The three masked assignments of whole-band mode, one after the other,
    as they act on one element. *)
Definition soft_steps (t : F) (x : F) : F :=
  shrink_below t (zero_within t (shrink_above t x)).

(** The threshold [threshold_func] gives for the band [cb] at index [b],
    scaled. *)
Definition band_threshold_of
    (tf : ndarray F -> nat -> option Z -> F * F) (sf : option F)
    (b : nat) (cb : ndarray F) : F :=
  scale_threshold sf (tf cb (band_level b) None).2.

(** What whole-band mode leaves in place of the detail band [cb] at
    index [b]. *)
Definition edited_band
    (tf : ndarray F -> nat -> option Z -> F * F) (skip_bands : list nat)
    (sf : option F) (b : nat) (cb : ndarray F) : ndarray F :=
  if bool_decide (band_level b ∈ skip_bands) then cb
  else arr_map (soft_steps (band_threshold_of tf sf b cb)) cb.

(** The first array of the bundle has one, two or three dimensions. *)
Definition supported_bundle (coefs : bundle F) : Prop :=
  exists c0, coefs !! 0 = Some c0 /\ 1 <= length (shape c0) <= 3.

(** Every coefficient of every detail band is zero. *)
Definition all_detail_zero (coefs : bundle F) : Prop :=
  forall b cb, b < length coefs - 1 -> coefs !! b = Some cb ->
    Forall (fun x => x = fzero) (data cb).

(** Soft thresholding as the specification words it: a value above the
    threshold is reduced by it, a value of absolute value at most the
    threshold becomes zero, a value below the negated threshold is
    increased by it.  Each value is classified once, as it was. *)
Definition soft_threshold (t : F) (x : F) : F :=
  if fltb t x then fsub x t
  else if fleb (fabs x) t then fzero
  else if fltb x (fneg t) then fadd x t
  else x.

End Notions.

Section ExactNotions.
Local Open Scope R_scope.

(** The sum of a list of reals. *)
Definition Rsum (l : list R) : R := fold_right Rplus 0 l.

(** The deltas the update applies: every element of every [alpha * u]. *)
Definition applied_deltas (alpha : R) (upd : bundle R) : list R :=
  concat (map (fun u => map (Rmult alpha) (data u)) upd).

(** The sum of the squares of a list of reals. *)
Definition sum_of_squares (l : list R) : R :=
  Rsum (map (fun x => x * x) l).

(** The total number of elements of the arrays of [upd]. *)
Definition element_count (upd : bundle R) : nat :=
  length (concat (map data upd)).

(** Every element of every array of [upd] is one. *)
Definition all_ones (upd : bundle R) : Prop :=
  Forall (fun u => Forall (fun x => x = 1) (data u)) upd.

(** Every value of every detail band is inside [[-threshold, threshold]],
    the threshold being that of its band. *)
Definition within_threshold (tf : ndarray R -> nat -> option Z -> R * R)
    (sf : option R) (coefs : bundle R) : Prop :=
  forall b cb, (b < length coefs - 1)%nat -> coefs !! b = Some cb ->
    Forall (fun x => - band_threshold_of tf sf b cb <= x
                     <= band_threshold_of tf sf b cb) (data cb).

(** Two ones, and two zeros. *)
Definition ones_R : ndarray R := mk_ndarray [2%nat] [1; 1].

Definition zeros_R : ndarray R := mk_ndarray [2%nat] [0; 0].

(** One detail band and a low-pass band. *)
Definition small_bundle_R : bundle R :=
  [mk_ndarray [2%nat] [3 / 2; -1]; mk_ndarray [2%nat] [7; 7]].

(** One detail band with its values inside [[-1, 1]], and a low-pass
    band. *)
Definition gentle_bundle_R : bundle R :=
  [mk_ndarray [2%nat] [1 / 2; -1]; mk_ndarray [2%nat] [7; 7]].

End ExactNotions.

Section Inputs.
Local Open Scope float_scope.

(** A [threshold_func] that answers the same center and threshold to every
    call. *)
Definition fixed {F : Type} (c t : F)
    : ndarray F -> nat -> option Z -> F * F :=
  fun _ _ _ => (c, t).

(** A one-dimensional array. *)
Definition vec (l : list float) : ndarray float := mk_ndarray [length l] l.

(** A [threshold_func] that tells a negative plane index from the others:
    threshold 100 for a negative index, 0 otherwise. *)
Definition by_plane_sign : ndarray float -> nat -> option Z -> float * float :=
  fun _ _ adjusted_plane =>
    (0, match adjusted_plane with
        | Some z => if (z <? 0)%Z then 100 else 0
        | None => 0
        end).

(** The bundle of a two-dimensional transform with two levels: seven
    arrays, all of shape [(2, 2)] and every element five. *)
Definition bundle_2d : bundle float :=
  repeat (mk_ndarray [2; 2]%nat [5; 5; 5; 5]) 7.

(** The bundle of a three-dimensional transform with two levels: fifteen
    arrays, all of shape [(1, 1, 3)] and every element one. *)
Definition bundle_3d : bundle float :=
  repeat (mk_ndarray [1; 1; 3]%nat [1; 1; 1]) 15.

End Inputs.

(* ------------------------------------------------------------------ *)
(** ** The rest of the module                                          *)
(* ------------------------------------------------------------------ *)

Section Inverse.
Context {F : Type}.

(** The three inverse variants of the transform engine, parameters as
    the forward ones are. *)
Variables imodwt1 imodwt2 imodwt3 : bundle F -> string -> result (ndarray F).

(** [inverse_modwt_transform(coefs, wavelet_type)]. *)
Definition inverse_modwt_transform (coefs : bundle F) (wavelet_type : string)
    : result (ndarray F) :=
  match coefs !! 0 with
  | None => Raise IndexError
  | Some c0 =>
      let ndims := length (shape c0) in
      match ndims with
      | 1 => imodwt1 coefs wavelet_type
      | 2 => imodwt2 coefs wavelet_type
      | 3 => imodwt3 coefs wavelet_type
      | _ => Raise NotImplementedError
      end
  end.

(** [self.inv(coefs)]. *)
Definition inv (self : UndecimatedWaveletTransform F) (coefs : bundle F)
    : result (ndarray F) :=
  inverse_modwt_transform coefs (wavelet_type self).

End Inverse.

Section Utilities.
Context {F : Type} `{Scalar F}.

(** [num_coefficients()]: [len(self.example_coefs)] is taken first, then
    the shape of the first array. *)
Definition num_coefficients (self : UndecimatedWaveletTransform F)
    : result nat :=
  match example_coefs self !! 0 with
  | None => Raise IndexError
  | Some c0 => Ok (length (example_coefs self) * prod_shape (shape c0))
  end.

(** [x != 0], the test of [nonzero()]: [x] is zero when both [x <= 0] and
    [0 <= x] hold. *)
Definition is_nonzero (x : F) : bool :=
  negb (fleb x fzero && fleb fzero x).

(** [band.nonzero()[0].shape[0]]: how many elements are not zero. *)
Definition count_nonzero (band : ndarray F) : nat :=
  length (filter (fun x => is_nonzero x = true) (data band)).

(** [num_nonzero_coefficients(coefs)]: the [sum] of the counts, from 0. *)
Definition num_nonzero_coefficients (coefs : bundle F) : nat :=
  fold_left Nat.add (map count_nonzero coefs) 0.

(** [set_coefs(coefs, value)]: [coefs[b].fill(value)] for every [b]. *)
Definition set_coefs (value : F) : M F unit :=
  n ← len;
  for_xrange n (fun b => edit_item b (arr_map (fun _ => value))).

End Utilities.

(** An element count as a scalar: the conversion that the division of
    [mean] makes. *)
Class FromCount (F : Type) : Type := from_count : nat -> F.

#[export] Instance R_FromCount : FromCount R := INR.

#[export] Instance float_FromCount : FromCount float :=
  fun n => PrimFloat.of_uint63 (Uint63.of_Z (Z.of_nat n)).

Section Mean.
Context {F : Type} `{Scalar F} `{FromCount F}.

(** [mean(coefs)].  Both sums start from the integer 0: on an empty bundle
    the quotient is the integer [0/0], which raises; otherwise it is a
    quotient of floats. *)
Definition mean (coefs : bundle F) : result F :=
  let n :=
    fold_left Nat.add (map (fun coef => prod_shape (shape coef)) coefs) 0 in
  let coef_sum := fold_left fadd (map arr_sum coefs) fzero in
  match coefs with
  | [] => Raise ZeroDivisionError
  | _ => Ok (fdiv coef_sum (from_count n))
  end.

End Mean.

(* ------------------------------------------------------------------ *)
(** ** Notions for the rest of the module                             *)
(* ------------------------------------------------------------------ *)

Section FurtherNotions.
Context {F : Type} `{Scalar F}.

(** The shapes of the arrays, in order. *)
Definition shapes (coefs : bundle F) : list (list nat) := map shape coefs.

(** The entry at [b0] stays, and the length with it. *)
Definition same_at (b0 : nat) (s0 : bundle F) : bundle F -> Prop :=
  fun s => length s = length s0 /\ s !! b0 = s0 !! b0.

(** One band of the multiplicative update:
    [((c * nu) / no) / (de + alpha)], elementwise. *)
Definition mult_band (alpha : F) (c nu no de : ndarray F) : ndarray F :=
  mk_ndarray (shape c)
    (zip_with fdiv
       (zip_with fdiv (zip_with fmul (data c) (data nu)) (data no))
       (map (fun x => fadd x alpha) (data de))).

(** The bands updated one by one, as long as the three operand lists
    last; the bands after that are kept. *)
Fixpoint mult_bands (alpha : F) (cs nus nos des : bundle F) : bundle F :=
  match cs, nus, nos, des with
  | c :: cs', nu :: nus', no :: nos', de :: des' =>
      mult_band alpha c nu no de :: mult_bands alpha cs' nus' nos' des'
  | _, _, _, _ => cs
  end.

(** [a.fill(value)]. *)
Definition filled (value : F) (a : ndarray F) : ndarray F :=
  arr_map (fun _ => value) a.

(** The bundle keeps its length and does not gain non-zero elements. *)
Definition no_more_nonzero (s0 : bundle F) : bundle F -> Prop :=
  fun s => length s = length s0
           /\ num_nonzero_coefficients s <= num_nonzero_coefficients s0.

(** The elements of [l], numbered from [i], whose coordinate along
    [axis] is selected, set to zero. *)
Fixpoint zero_planes (s : list nat) (axis : nat) (sel : nat -> bool)
    (i : nat) (l : list F) : list F :=
  match l with
  | [] => []
  | x :: l' =>
      (if sel (coord s axis i) then fzero else x)
        :: zero_planes s axis sel (S i) l'
  end.

(** The array with the selected planes along [axis] set to zero. *)
Definition masked (axis : nat) (sel : nat -> bool) (a : ndarray F)
    : ndarray F :=
  mk_ndarray (shape a) (zero_planes (shape a) axis sel 0 (data a)).

(** The planes [low_pass_spatial_filter] assigns in band [b]: those of
    index strictly between the bounds, when the level of the band is
    below [max_band]. *)
Definition mask_selects (lo hi max_band : Z) (b : nat) (p : nat) : bool :=
  (lo <? Z.of_nat p)%Z && (Z.of_nat p <? hi)%Z
  && (Z.of_nat (band_level b) <? max_band)%Z.

(** What the mask leaves in place of the detail band [a] at index [b]:
    along [axis], the planes the mask selects, among those the band has,
    are zero. *)
Definition masked_band (axis : nat) (lo hi max_band : Z) (b : nat)
    (a : ndarray F) : ndarray F :=
  masked axis
    (fun c => (c <? nth axis (shape a) 0) && mask_selects lo hi max_band b c)
    a.

(** Every element of [l], numbered from [i], edited by the function of
    its own plane along [axis]. *)
Fixpoint planes_map (s : list nat) (axis : nat) (pf : nat -> F -> F)
    (i : nat) (l : list F) : list F :=
  match l with
  | [] => []
  | x :: l' => pf (coord s axis i) x :: planes_map s axis pf (S i) l'
  end.

(** The array with each plane along [axis] edited by its own function. *)
Definition by_planes (axis : nat) (pf : nat -> F -> F) (a : ndarray F)
    : ndarray F :=
  mk_ndarray (shape a) (planes_map (shape a) axis pf 0 (data a)).

(** The four masked assignments of per-plane mode, one after the other,
    as they act on one element. *)
Definition gated_steps (c t : F) (x : F) : F :=
  shrink_below t (zero_within t (shrink_above t (gate_step c t x))).

(** The edit of plane [p] of the band [a] at index [b]: the four steps at
    the center and the scaled threshold that [threshold_func] gives for
    the plane as it is in [a], the band level and the adjusted plane
    index. *)
Definition plane_steps
    (tf : ndarray F -> nat -> option Z -> F * F) (sf : option F)
    (axis : nat) (b : nat) (a : ndarray F) (p : nat) : F -> F :=
  let num_planes := nth axis (shape a) 0 in
  let ct := tf (get_plane axis p a) (band_level b)
               (Some (adjusted_plane num_planes p (band_level b))) in
  gated_steps ct.1 (scale_threshold sf ct.2).

(** What per-plane mode leaves in place of the detail band [a] at index
    [b]. *)
Definition edited_planes
    (tf : ndarray F -> nat -> option Z -> F * F) (skip_bands : list nat)
    (sf : option F) (axis : nat) (b : nat) (a : ndarray F) : ndarray F :=
  if bool_decide (band_level b ∈ skip_bands) then a
  else by_planes axis
         (fun c => if c <? nth axis (shape a) 0
                   then plane_steps tf sf axis b a c else fun x => x) a.

End FurtherNotions.

Section FurtherExactNotions.
Local Open Scope R_scope.

(** A value after the three steps at a threshold that is not negative:
    beyond twice the threshold it has come down by the threshold, below
    the negated threshold it has come up by it, and it is zero between. *)
Definition shrunk (t x : R) : R :=
  if decide (2 * t < x) then x - t
  else if decide (x < - t) then x + t
  else 0.

(** The number of elements the shapes of the bundle announce. *)
Definition announced_size (coefs : bundle R) : nat :=
  sum_list (map (fun a => prod_shape (shape a)) coefs).

End FurtherExactNotions.

(* ------------------------------------------------------------------ *)
(** ** Reasoning about computations on a bundle                        *)
(* ------------------------------------------------------------------ *)

Section Invariants.
Context {F : Type}.
Implicit Types (s : bundle F) (I : bundle F -> Prop).

Lemma run_bind {A B} (m : M F A) (k : A -> M F B) s :
  (m ≫= k) s =
  match m s with
  | (s', Ok a) => k a s'
  | (s', Raise e) => (s', Raise e)
  end.
Proof. reflexivity. Qed.

Lemma keeps_weaken {A} I (m : M F A) (Q Q' : A -> Prop) :
  keeps I m Q -> (forall a, Q a -> Q' a) -> keeps I m Q'.
Proof.
  intros Hm HQ s Hs. destruct (Hm s Hs) as [HI Hv]. split; [exact HI|].
  intros a Ha. apply HQ, Hv, Ha.
Qed.

Lemma keeps_ret {A} I (a : A) : keeps I (mret a) (fun x => x = a).
Proof. intros s Hs. split; [exact Hs|]. intros x [= ->]. reflexivity. Qed.

Lemma keeps_raise {A} I e (Q : A -> Prop) : keeps I (raise e) Q.
Proof. intros s Hs. split; [exact Hs|]. intros x [=]. Qed.

Lemma keeps_lift {A} I (r : result A) : keeps I (lift r) (fun x => r = Ok x).
Proof. intros s Hs. split; [exact Hs|]. intros x Hx. exact Hx. Qed.

Lemma keeps_bind {A B} I (m : M F A) (k : A -> M F B) Q R :
  keeps I m Q -> (forall a, Q a -> keeps I (k a) R) -> keeps I (m ≫= k) R.
Proof.
  intros Hm Hk s Hs. rewrite run_bind.
  destruct (Hm s Hs) as [HI Hv]. destruct (m s) as [s' [a|e]]; simpl in *.
  - apply (Hk a (Hv a eq_refl) s' HI).
  - split; [exact HI|]. intros x [=].
Qed.

Lemma keeps_for_each {A} I (idxs : list nat) (body : nat -> A -> M F A) acc :
  (forall i a, i ∈ idxs -> keeps I (body i a) (fun _ => True)) ->
  keeps I (for_each idxs body acc) (fun _ => True).
Proof.
  revert acc. induction idxs as [|i rest IH]; intros acc Hbody; simpl.
  - eapply keeps_weaken; [apply keeps_ret|]. done.
  - eapply keeps_bind.
    + apply Hbody. left.
    + intros a _. apply IH. intros j b Hj. apply Hbody. right. exact Hj.
Qed.

Lemma keeps_for_xrange I (n : nat) (body : nat -> M F unit) :
  (forall i, i < n -> keeps I (body i) (fun _ => True)) ->
  keeps I (for_xrange n body) (fun _ => True).
Proof.
  intros Hbody. apply keeps_for_each. intros i a Hi. apply Hbody.
  apply elem_of_seq in Hi. lia.
Qed.

(** Reading leaves the bundle as it is, so it keeps every invariant. *)

Lemma keeps_get_item I b :
  keeps I (get_item b) (fun _ => True).
Proof.
  intros s Hs. unfold get_item. destruct (s !! b); simpl; split; done.
Qed.

Lemma keeps_get_view I b axis p :
  keeps I (get_view b axis p) (fun _ => True).
Proof.
  unfold get_view. eapply keeps_bind; [apply keeps_get_item|].
  intros cb _. destruct (plane_ok axis p cb).
  - eapply keeps_weaken; [apply keeps_ret|]. done.
  - apply keeps_raise.
Qed.

(** An invariant that speaks of the length of the bundle alone, or more,
    gives the value of [len]. *)
Lemma keeps_len I n :
  (forall s, I s -> length s = n) ->
  keeps I len (fun x => x = n).
Proof.
  intros HI s Hs. split; [exact Hs|]. simpl. intros a [= <-]. apply HI, Hs.
Qed.

Lemma keeps_edit_item_last s0 b f :
  b < length s0 - 1 ->
  keeps (same_last s0) (edit_item b f) (fun _ => True).
Proof.
  intros Hb s [Hlen Hlast]. unfold edit_item.
  destruct (s !! b) as [a|]; simpl; [|done].
  split; [|done]. split.
  - rewrite length_insert. exact Hlen.
  - rewrite <- Hlast, !last_lookup, length_insert.
    apply list_lookup_insert_ne. lia.
Qed.

(** A bundle that no edit changes. *)
Lemma keeps_edit_item_id s0 b f :
  (forall a, s0 !! b = Some a -> f a = a) ->
  keeps (fun s => s = s0) (edit_item b f) (fun _ => True).
Proof.
  intros Hf s ->. unfold edit_item.
  destruct (s0 !! b) as [a|] eqn:Hb; simpl; [|done].
  split; [|done]. rewrite (Hf a eq_refl). apply list_insert_id, Hb.
Qed.

End Invariants.

(* ------------------------------------------------------------------ *)
(** ** The low-pass band and the spatial mask                          *)
(* ------------------------------------------------------------------ *)

Section Frame.
Context {F : Type} `{Scalar F}.

Lemma same_last_refl (s0 : bundle F) : same_last s0 s0.
Proof. split; reflexivity. Qed.

Lemma keeps_edit_view_last (s0 : bundle F) b axis p f :
  b < length s0 - 1 ->
  keeps (same_last s0) (edit_view b axis p f) (fun _ => True).
Proof. apply keeps_edit_item_last. Qed.

(** The one traversal behind every invariant of [threshold_by_band]: the
    invariant fixes the length of the bundle, and it is kept by an edit, of
    a detail band or of a plane of one, with any of the four steps at a
    threshold [threshold_func] gives. *)
Lemma threshold_by_band_keeps (I : bundle F -> Prop) (n : nat)
    (P : (F -> F) -> Prop) tf skip_bands within_axis scaling_factor :
  (forall s, I s -> length s = n) ->
  (forall b g, b < n - 1 -> P g ->
     keeps I (edit_item b (arr_map g)) (fun _ => True)) ->
  (forall b axis p g, b < n - 1 -> P g ->
     keeps I (edit_view b axis p g) (fun _ => True)) ->
  (forall A l p,
     P (gate_step (tf A l p).1 (scale_threshold scaling_factor (tf A l p).2))
     /\ P (shrink_above (scale_threshold scaling_factor (tf A l p).2))
     /\ P (zero_within (scale_threshold scaling_factor (tf A l p).2))
     /\ P (shrink_below (scale_threshold scaling_factor (tf A l p).2))) ->
  keeps I (threshold_by_band tf skip_bands within_axis scaling_factor)
        (fun _ => True).
Proof.
  intros Hlen Hband Hplane Hsteps. unfold threshold_by_band.
  eapply keeps_bind; [apply keeps_get_item|]. intros c0 _.
  eapply keeps_bind with (Q := fun _ => True).
  { destruct (length (shape c0)) as [|[|[|[|?]]]];
      first [apply keeps_raise
            | eapply keeps_weaken; [apply keeps_ret|]; done]. }
  intros _ _.
  eapply keeps_bind; [apply (keeps_len _ n), Hlen|].
  intros ? ->. apply keeps_for_xrange. intros b Hb.
  destruct (bool_decide _).
  { eapply keeps_weaken; [apply keeps_ret|]. done. }
  destruct within_axis as [wa|].
  - eapply keeps_bind; [apply keeps_get_item|]. intros cb _.
    eapply keeps_bind; [apply keeps_lift|]. intros num_planes _.
    apply keeps_for_xrange. intros p _.
    eapply keeps_bind; [apply keeps_get_view|]. intros A _.
    destruct (Hsteps A (band_level b)
                (Some (adjusted_plane num_planes p (band_level b))))
      as (Hg & Ha & Hz & Hb').
    destruct (tf A (band_level b) _) as [c t]. simpl in *.
    eapply keeps_bind; [apply Hplane; [exact Hb|exact Hg]|]; intros _ _.
    eapply keeps_bind; [apply Hplane; [exact Hb|exact Ha]|]; intros _ _.
    eapply keeps_bind; [apply Hplane; [exact Hb|exact Hz]|]; intros _ _.
    apply Hplane; [exact Hb|exact Hb'].
  - eapply keeps_bind; [apply keeps_get_item|]. intros cb _.
    destruct (Hsteps cb (band_level b) None) as (_ & Ha & Hz & Hb').
    destruct (tf cb (band_level b) None) as [c t]. simpl in *.
    eapply keeps_bind; [apply Hband; [exact Hb|exact Ha]|]; intros _ _.
    eapply keeps_bind; [apply Hband; [exact Hb|exact Hz]|]; intros _ _.
    apply Hband; [exact Hb|exact Hb'].
Qed.

Lemma threshold_by_band_keeps_last tf skip_bands within_axis scaling_factor
    (s0 : bundle F) :
  keeps (same_last s0)
        (threshold_by_band tf skip_bands within_axis scaling_factor)
        (fun _ => True).
Proof.
  apply (threshold_by_band_keeps _ (length s0) (fun _ => True)).
  - intros s [Hs _]. exact Hs.
  - intros b g Hb _. apply keeps_edit_item_last, Hb.
  - intros b axis p g Hb _. apply keeps_edit_view_last, Hb.
  - done.
Qed.

Lemma low_pass_spatial_filter_keeps_last within_axis range max_band
    (s0 : bundle F) :
  keeps (same_last s0) (low_pass_spatial_filter within_axis range max_band)
        (fun _ => True).
Proof.
  unfold low_pass_spatial_filter.
  eapply keeps_bind; [apply (keeps_len _ (length s0)); intros s [Hs _]; exact Hs|].
  intros n ->. apply keeps_for_xrange. intros b Hb.
  eapply keeps_bind; [apply keeps_get_item|]. intros cb _.
  eapply keeps_bind; [apply keeps_lift|]. intros num_planes _.
  apply keeps_for_xrange. intros p _.
  eapply keeps_bind; [apply keeps_get_view|]. intros A _.
  destruct (_ && _).
  - apply keeps_edit_view_last, Hb.
  - eapply keeps_weaken; [apply keeps_ret|]. done.
Qed.

(** C3.  Whatever the bundle and the other arguments, and whether the call
    returns or raises, [threshold_by_band] and [low_pass_spatial_filter]
    leave the bundle with the length it had and with its last entry
    [coefs[-1]], the low-pass band, as it was. *)
Theorem low_pass_band_untouched :
  forall (coefs : bundle F),
    (forall tf skip_bands within_axis scaling_factor,
        let coefs' :=
          (threshold_by_band tf skip_bands within_axis scaling_factor coefs).1 in
        length coefs' = length coefs /\ last coefs' = last coefs) /\
    (forall within_axis range max_band,
        let coefs' :=
          (low_pass_spatial_filter within_axis range max_band coefs).1 in
        length coefs' = length coefs /\ last coefs' = last coefs).
Proof.
  intros coefs. split.
  - intros tf sk wa sf.
    apply (threshold_by_band_keeps_last tf sk wa sf coefs coefs).
    apply same_last_refl.
  - intros wa rg mb.
    apply (low_pass_spatial_filter_keeps_last wa rg mb coefs coefs).
    apply same_last_refl.
Qed.

(** C10.  When [range = (lo, hi)] has [hi <= lo + 1], as the default
    [(0, 0)] has, no plane index lies strictly between the two bounds and
    [low_pass_spatial_filter] leaves every array of the bundle as it was. *)
Theorem low_pass_spatial_filter_empty_range :
  forall (coefs : bundle F) (within_axis lo hi max_band : Z),
    (hi <= lo + 1)%Z ->
    (low_pass_spatial_filter within_axis (lo, hi) max_band coefs).1 = coefs.
Proof.
  intros coefs wa lo hi mb Hr.
  assert (Hk : keeps (fun s => s = coefs)
                     (low_pass_spatial_filter wa (lo, hi) mb) (fun _ => True)).
  { unfold low_pass_spatial_filter.
    eapply keeps_bind;
      [apply (keeps_len _ (length coefs)); intros s ->; reflexivity|].
    intros n ->. apply keeps_for_xrange. intros b Hb.
    eapply keeps_bind; [apply keeps_get_item|]. intros cb _.
    eapply keeps_bind; [apply keeps_lift|]. intros num_planes _.
    apply keeps_for_xrange. intros p _.
    eapply keeps_bind; [apply keeps_get_view|]. intros A _.
    simpl.
    replace ((lo <? Z.of_nat p)%Z && (Z.of_nat p <? hi)%Z) with false.
    - simpl. eapply keeps_weaken; [apply keeps_ret|]. done.
    - symmetry. apply andb_false_iff.
      destruct (Z.ltb_spec lo (Z.of_nat p)); [right|left; reflexivity].
      apply Z.ltb_ge. lia. }
  apply (Hk coefs eq_refl).
Qed.

End Frame.

(* ------------------------------------------------------------------ *)
(** ** Flattening and its inverse                                      *)
(* ------------------------------------------------------------------ *)

Section Vectorize.
Context {F : Type}.
Implicit Types (v : list F) (vs : list (list F)).

Lemma length_concat_uniform sz vs :
  Forall (fun v => length v = sz) vs ->
  length (concat vs) = length vs * sz.
Proof.
  induction 1 as [|v vs Hv _ IH]; simpl; [reflexivity|].
  rewrite length_app, IH, Hv. reflexivity.
Qed.

Lemma chunks_concat sz vs :
  Forall (fun v => length v = sz) vs ->
  chunks sz (length vs) (concat vs) = vs.
Proof.
  induction 1 as [|v vs Hv _ IH]; simpl; [reflexivity|].
  rewrite take_app_length' by (symmetry; exact Hv).
  rewrite drop_app_length' by (symmetry; exact Hv).
  rewrite IH. reflexivity.
Qed.

Lemma np_split_concat sz vs :
  vs <> [] ->
  Forall (fun v => length v = sz) vs ->
  np_split (concat vs) (length vs) = Ok vs.
Proof.
  intros Hne Hall. unfold np_split.
  assert (Hpos : length vs <> 0) by (destruct vs; simpl; congruence).
  rewrite (proj2 (Nat.eqb_neq _ _) Hpos).
  rewrite (length_concat_uniform sz vs Hall).
  rewrite Nat.mul_comm, Nat.Div0.mod_mul. simpl.
  rewrite Nat.div_mul by exact Hpos.
  rewrite chunks_concat by exact Hall. reflexivity.
Qed.

Lemma map_result_reshape (S : list nat) (B : bundle F) :
  Forall (fun a => shape a = S /\ wf_array a) B ->
  map_result (reshape_f S) (map ravel_f B) = Ok B.
Proof.
  induction 1 as [|a B [Hs Hwf] _ IH]; simpl; [reflexivity|].
  unfold reshape_f, ravel_f in *.
  unfold wf_array in Hwf. rewrite Hs in Hwf. rewrite Hwf, Nat.eqb_refl.
  simpl. rewrite IH. simpl. destruct a as [sh d]. simpl in Hs. subst sh.
  reflexivity.
Qed.

(** C4.  For a handle fixed on the shape [img_shape], whose probe bundle
    [example_coefs] is not empty, and a bundle [B] of as many arrays as
    [example_coefs], each of that shape: [coefs_to_vec B] returns a vector
    from which [vec_to_coefs] returns [B] itself. *)
Theorem vec_to_coefs_coefs_to_vec :
  forall (self : UndecimatedWaveletTransform F) (B : bundle F),
    0 < length (example_coefs self) ->
    length B = length (example_coefs self) ->
    Forall (fun a => shape a = img_shape self /\ wf_array a) B ->
    exists vec,
      coefs_to_vec B = Ok vec /\ vec_to_coefs self vec = Ok B.
Proof.
  intros self B Hpos Hlen Hall.
  assert (Hne : map ravel_f B <> []).
  { destruct B; simpl in *; [lia|congruence]. }
  exists (concat (map ravel_f B)). split.
  - unfold coefs_to_vec, np_hstack.
    destruct (map ravel_f B); [congruence|reflexivity].
  - unfold vec_to_coefs. rewrite <- Hlen.
    rewrite <- (length_map ravel_f B).
    rewrite (np_split_concat (prod_shape (img_shape self))); [| exact Hne |].
    + simpl. apply map_result_reshape, Hall.
    + apply Forall_map. eapply Forall_impl; [exact Hall|].
      intros a [Hs Hwf]. simpl. unfold ravel_f.
      rewrite <- Hs. exact Hwf.
Qed.

End Vectorize.

(* ------------------------------------------------------------------ *)
(** ** Running a computation step by step                              *)
(* ------------------------------------------------------------------ *)

Section Running.
Context {F : Type}.
Implicit Types (s : bundle F).

Lemma run_ret {A} (a : A) s : (mret a : M F A) s = (s, Ok a).
Proof. reflexivity. Qed.

Lemma run_len s : len s = (s, Ok (length s)).
Proof. reflexivity. Qed.

Lemma run_lift {A} (r : result A) s : lift r s = (s, r).
Proof. reflexivity. Qed.

Lemma run_get_item s b a : s !! b = Some a -> get_item b s = (s, Ok a).
Proof. intros Hb. unfold get_item. rewrite Hb. reflexivity. Qed.

Lemma run_get_item_None s b : s !! b = None -> get_item b s = (s, Raise IndexError).
Proof. intros Hb. unfold get_item. rewrite Hb. reflexivity. Qed.

Lemma run_item (l : bundle F) s b a : l !! b = Some a -> item l b s = (s, Ok a).
Proof. intros Hb. unfold item. rewrite Hb. reflexivity. Qed.

Lemma run_item_None (l : bundle F) s b :
  l !! b = None -> item l b s = (s, Raise IndexError).
Proof. intros Hb. unfold item. rewrite Hb. reflexivity. Qed.

Lemma run_edit_item s b a f :
  s !! b = Some a -> edit_item b f s = (<[b := f a]> s, Ok tt).
Proof. intros Hb. unfold edit_item. rewrite Hb. reflexivity. Qed.

(** The entry after a prefix: read and written. *)
Lemma run_get_item_middle (pre post : bundle F) a :
  get_item (length pre) (pre ++ a :: post) = (pre ++ a :: post, Ok a).
Proof. apply run_get_item, list_lookup_middle. reflexivity. Qed.

Lemma run_edit_item_middle (pre post : bundle F) a f :
  edit_item (length pre) f (pre ++ a :: post) = (pre ++ f a :: post, Ok tt).
Proof.
  rewrite (run_edit_item _ _ a) by (apply list_lookup_middle; reflexivity).
  rewrite <- (Nat.add_0_r (length pre)) at 1.
  rewrite insert_app_r. reflexivity.
Qed.

End Running.

Tactic Notation "run_with" open_constr(lem) :=
  rewrite ?run_bind, lem; cbv beta iota.

(* ------------------------------------------------------------------ *)
(** ** The additive update                                             *)
(* ------------------------------------------------------------------ *)

Section AdditiveUpdate.
Context {F : Type} `{Scalar F}.

Lemma arr_zip_same_shape (f : F -> F -> F) (a b : ndarray F) :
  shape a = shape b ->
  arr_zip f a b = Ok (mk_ndarray (shape a) (zip_with f (data a) (data b))).
Proof. intros Hab. unfold arr_zip. rewrite decide_True by exact Hab. reflexivity. Qed.

Lemma update_loop (alpha : F) (cs us pre_c pre_u : bundle F) (acc : F) :
  Forall2 (fun c u => shape c = shape u) cs us ->
  length pre_c = length pre_u ->
  for_each (seq (length pre_c) (length cs))
    (fun b update_squared_sum =>
       u ← item (pre_u ++ us) b;
       cb ← get_item b;
       sum ← lift (arr_zip fadd cb (arr_map (fmul alpha) u));
       edit_item b (fun _ => sum);;
       mret (fadd update_squared_sum
                  (arr_sum (np_square (arr_map (fmul alpha) u)))))
    acc (pre_c ++ cs)
  = (pre_c ++ zip_with (add_scaled alpha) cs us,
     Ok (fold_left (add_squares alpha) us acc)).
Proof.
  intros Hsh. revert pre_c pre_u acc.
  induction Hsh as [|c u cs us Hcu _ IH]; intros pre_c pre_u acc Hpre.
  - simpl. reflexivity.
  - simpl seq. simpl for_each.
    run_with (run_item (pre_u ++ u :: us) (pre_c ++ c :: cs) (length pre_c) u).
    2:{ rewrite Hpre. apply list_lookup_middle. reflexivity. }
    run_with run_get_item_middle.
    rewrite ?run_bind, run_lift.
    rewrite arr_zip_same_shape by (simpl; exact Hcu). cbv beta iota.
    run_with run_edit_item_middle.
    rewrite run_ret. cbv beta iota.
    specialize (IH (pre_c ++ [add_scaled alpha c u]) (pre_u ++ [u])
                  (add_squares alpha acc u)).
    rewrite !length_app in IH. simpl in IH.
    rewrite !Nat.add_1_r in IH. rewrite <- !app_assoc in IH. simpl in IH.
    apply IH. f_equal. exact Hpre.
Qed.

(** What [update] does to a bundle and an update of equal lengths whose
    arrays agree in shape band by band. *)
Lemma update_run (alpha : F) (coefs upd : bundle F) :
  Forall2 (fun c u => shape c = shape u) coefs upd ->
  update upd alpha coefs
  = (zip_with (add_scaled alpha) coefs upd,
     Ok (fsqrt (fold_left (add_squares alpha) upd fzero))).
Proof.
  intros Hsh. unfold update. cbv zeta.
  rewrite run_bind, run_len. cbv beta iota.
  rewrite (Forall2_length _ _ _ Hsh), Nat.eqb_refl.
  change (negb true) with false. cbv iota.
  rewrite run_bind.
  rewrite <- (Forall2_length _ _ _ Hsh).
  rewrite (update_loop alpha coefs upd [] [] fzero Hsh eq_refl).
  reflexivity.
Qed.

(** The two length assertions: a failed one raises before any edit. *)

Lemma update_length_mismatch (alpha : F) (coefs upd : bundle F) :
  length coefs <> length upd ->
  update upd alpha coefs = (coefs, Raise AssertionError).
Proof.
  intros Hl. unfold update. rewrite run_bind, run_len. cbv beta iota.
  rewrite (proj2 (Nat.eqb_neq _ _) Hl). reflexivity.
Qed.

Lemma multiplicative_update_length_mismatch (alpha : F)
    (coefs numerator denominator normalization : bundle F) :
  length coefs <> length numerator
  \/ length numerator <> length denominator ->
  multiplicative_update numerator denominator normalization alpha coefs
  = (coefs, Raise AssertionError).
Proof.
  intros Hl. unfold multiplicative_update.
  rewrite run_bind, run_len. cbv beta iota.
  replace ((length coefs =? length numerator)
           && (length numerator =? length denominator)) with false;
    [reflexivity|].
  symmetry. apply andb_false_iff.
  destruct Hl as [Hl|Hl]; [left|right]; apply Nat.eqb_neq; exact Hl.
Qed.

End AdditiveUpdate.

Section AdditiveUpdateNorm.
Local Open Scope R_scope.

Lemma Rsum_app (l1 l2 : list R) : Rsum (l1 ++ l2) = Rsum l1 + Rsum l2.
Proof.
  induction l1 as [|x l1 IH]; simpl; [lra|].
  unfold Rsum in *. simpl. rewrite IH. lra.
Qed.

Lemma fold_left_Rplus (l : list R) (a : R) :
  fold_left Rplus l a = a + Rsum l.
Proof.
  revert a. induction l as [|x l IH]; intros a; simpl; [unfold Rsum; simpl; lra|].
  rewrite IH. unfold Rsum. simpl. lra.
Qed.

Lemma add_squares_sum (alpha acc : R) (u : ndarray R) :
  add_squares alpha acc u
  = acc + sum_of_squares (map (Rmult alpha) (data u)).
Proof.
  unfold add_squares, arr_sum, np_square, arr_map. simpl.
  rewrite fold_left_Rplus. unfold sum_of_squares.
  change fzero with 0. lra.
Qed.

Lemma fold_add_squares (alpha : R) (upd : bundle R) (acc : R) :
  fold_left (add_squares alpha) upd acc
  = acc + sum_of_squares (applied_deltas alpha upd).
Proof.
  revert acc. induction upd as [|u upd IH]; intros acc.
  - simpl. unfold sum_of_squares, applied_deltas, Rsum. simpl. lra.
  - cbn [fold_left]. rewrite IH, add_squares_sum.
    unfold applied_deltas. simpl. unfold sum_of_squares.
    rewrite map_app, Rsum_app. lra.
Qed.

Lemma sum_of_squares_twos (l : list R) :
  Forall (fun x => x = 1) l ->
  sum_of_squares (map (Rmult 2) l) = 4 * INR (length l).
Proof.
  induction 1 as [|x l -> _ IH].
  - simpl. unfold sum_of_squares, Rsum. simpl. lra.
  - unfold sum_of_squares, Rsum in *. cbn [map fold_right length].
    rewrite IH, S_INR. lra.
Qed.

Lemma sum_of_squares_all_ones (upd : bundle R) :
  all_ones upd ->
  sum_of_squares (applied_deltas 2 upd) = 4 * INR (element_count upd).
Proof.
  induction 1 as [|u upd Hu _ IH].
  - unfold sum_of_squares, applied_deltas, element_count, Rsum. simpl. lra.
  - unfold applied_deltas, element_count in *. simpl.
    unfold sum_of_squares in *. rewrite map_app, Rsum_app, length_app, plus_INR.
    rewrite IH. pose proof (sum_of_squares_twos _ Hu) as Hs.
    unfold sum_of_squares in Hs. rewrite Hs. lra.
Qed.

(** C9.  On a bundle and an update of equal lengths, whose arrays agree in
    shape band by band, [update] leaves [coefs[b] + alpha * update[b]] in
    place of each [coefs[b]] and returns the square root of the sum of the
    squares of all the deltas it applied; when every element of the update
    is one and [alpha] is two, that norm is [2 * sqrt N] for [N] the total
    number of elements. *)
Theorem update_adds_and_reports_norm :
  forall (alpha : R) (coefs upd : bundle R),
    Forall2 (fun c u => shape c = shape u) coefs upd ->
    update upd alpha coefs
    = (zip_with (add_scaled alpha) coefs upd,
       Ok (sqrt (sum_of_squares (applied_deltas alpha upd))))
    /\ (all_ones upd -> alpha = 2 ->
        sqrt (sum_of_squares (applied_deltas alpha upd))
        = 2 * sqrt (INR (element_count upd))).
Proof.
  intros alpha coefs upd Hsh. split.
  - rewrite (update_run alpha coefs upd Hsh), fold_add_squares.
    change fzero with 0. rewrite Rplus_0_l. reflexivity.
  - intros Hones ->. rewrite (sum_of_squares_all_ones upd Hones).
    rewrite sqrt_mult by (try lra; apply pos_INR).
    replace 4 with (2 * 2) by lra. rewrite sqrt_square by lra. reflexivity.
Qed.

End AdditiveUpdateNorm.

(* ------------------------------------------------------------------ *)
(** ** Thresholding a whole band                                       *)
(* ------------------------------------------------------------------ *)

Section WholeBand.
Context {F : Type} `{Scalar F}.

Lemma supported_bundle_dec (coefs : bundle F) :
  supported_bundle coefs \/ ~ supported_bundle coefs.
Proof.
  unfold supported_bundle. destruct (coefs !! 0) as [c0|] eqn:Hc0.
  - destruct (decide (1 <= length (shape c0) <= 3)) as [Hd|Hd].
    + left. exists c0. split; [reflexivity|exact Hd].
    + right. intros (c & [= <-] & Hc). exact (Hd Hc).
  - right. intros (c & [=] & _).
Qed.

Lemma arr_map_arr_map (f g : F -> F) (a : ndarray F) :
  arr_map g (arr_map f a) = arr_map (fun x => g (f x)) a.
Proof. unfold arr_map. simpl. rewrite map_map. reflexivity. Qed.

Lemma whole_band_loop tf skip_bands sf (cs pre post : bundle F) :
  for_each (seq (length pre) (length cs))
    (fun b (_ : unit) =>
       if bool_decide (band_level b ∈ skip_bands) then mret tt
       else
         cb ← get_item b;
         let '(band_center, band_threshold) :=
           tf cb (band_level b) None in
         let band_threshold := scale_threshold sf band_threshold in
         edit_item b (arr_map (shrink_above band_threshold));;
         edit_item b (arr_map (zero_within band_threshold));;
         edit_item b (arr_map (shrink_below band_threshold)))
    tt (pre ++ cs ++ post)
  = (pre ++ imap (fun i => edited_band tf skip_bands sf (length pre + i)) cs
         ++ post,
     Ok tt).
Proof.
  revert pre. induction cs as [|c cs IH]; intros pre.
  - reflexivity.
  - cbn [length seq for_each]. rewrite imap_cons.
    rewrite run_bind. cbv beta.
    assert (Hstep :
      (if bool_decide (band_level (length pre) ∈ skip_bands) then mret tt
       else
         cb ← get_item (length pre);
         let '(band_center, band_threshold) :=
           tf cb (band_level (length pre)) None in
         edit_item (length pre)
           (arr_map (shrink_above (scale_threshold sf band_threshold)));;
         edit_item (length pre)
           (arr_map (zero_within (scale_threshold sf band_threshold)));;
         edit_item (length pre)
           (arr_map (shrink_below (scale_threshold sf band_threshold))))
        (pre ++ (c :: cs) ++ post)
      = (pre ++ edited_band tf skip_bands sf (length pre + 0) c :: cs ++ post,
         Ok tt)).
    { unfold edited_band, band_threshold_of. rewrite Nat.add_0_r.
      destruct (bool_decide _); [reflexivity|].
      cbn [app]. run_with run_get_item_middle.
      destruct (tf c (band_level (length pre)) None) as [bc bt]. cbv zeta.
      run_with run_edit_item_middle.
      run_with run_edit_item_middle.
      rewrite run_edit_item_middle.
      rewrite !arr_map_arr_map. reflexivity. }
    rewrite Hstep. cbv beta iota.
    specialize (IH (pre ++ [edited_band tf skip_bands sf (length pre + 0) c])).
    rewrite length_app in IH. cbn [length] in IH.
    rewrite Nat.add_1_r, <- app_assoc in IH. cbn [app] in IH.
    rewrite IH, <- app_assoc. cbn [app].
    rewrite (imap_ext
               (fun i => edited_band tf skip_bands sf (S (length pre) + i))
               ((fun i => edited_band tf skip_bands sf (length pre + i)) ∘ S));
      [reflexivity|].
    intros i x _. simpl. f_equal. lia.
Qed.

(** What [threshold_by_band] does in whole-band mode to a bundle of details
    and a low-pass band: each detail band whose level is not skipped gets
    the three steps at its own threshold, and the call returns. *)
Lemma threshold_by_band_whole_band tf skip_bands sf
    (detail : bundle F) (low : ndarray F) :
  supported_bundle (detail ++ [low]) ->
  threshold_by_band tf skip_bands None sf (detail ++ [low])
  = (imap (edited_band tf skip_bands sf) detail ++ [low], Ok tt).
Proof.
  intros (c0 & Hc0 & Hdims). unfold threshold_by_band.
  run_with (run_get_item _ 0 c0 Hc0).
  assert (Hnd :
    (match length (shape c0) with
     | 1 => mret 1 | 2 => mret 3 | 3 => mret 7
     | _ => raise NotImplementedError
     end : M F nat) (detail ++ [low])
    = (detail ++ [low], Ok (match length (shape c0) with
                            | 1 => 1 | 2 => 3 | _ => 7 end))).
  { destruct (length (shape c0)) as [|[|[|[|?]]]]; try lia; reflexivity. }
  run_with Hnd.
  run_with run_len.
  rewrite length_app. cbn [length]. rewrite Nat.add_1_r, Nat.sub_1_r.
  cbn [Nat.pred]. unfold for_xrange.
  exact (whole_band_loop tf skip_bands sf detail [] [low]).
Qed.

(** Without a supported first array the call raises and edits nothing. *)
Lemma threshold_by_band_unsupported tf skip_bands within_axis sf
    (coefs : bundle F) :
  ~ supported_bundle coefs ->
  (threshold_by_band tf skip_bands within_axis sf coefs).1 = coefs.
Proof.
  intros Hns. unfold threshold_by_band. rewrite run_bind.
  destruct (coefs !! 0) as [c0|] eqn:Hc0.
  - rewrite (run_get_item _ _ _ Hc0). cbv beta iota. rewrite run_bind.
    destruct (length (shape c0)) as [|[|[|[|?]]]] eqn:Hd;
      try reflexivity;
      exfalso; apply Hns; exists c0; (split; [exact Hc0|lia]).
  - rewrite (run_get_item_None _ _ Hc0). reflexivity.
Qed.

End WholeBand.

(* ------------------------------------------------------------------ *)
(** ** Thresholding, again                                             *)
(* ------------------------------------------------------------------ *)

Section ZeroDetails.
Context {F : Type} `{Scalar F}.

Lemma map_fixes_zero (g : F -> F) (l : list F) :
  g fzero = fzero -> Forall (fun x => x = fzero) l -> map g l = l.
Proof.
  intros Hg. induction 1 as [|x l -> _ IH]; simpl; [reflexivity|].
  rewrite Hg, IH. reflexivity.
Qed.

Lemma plane_map_fixes_zero s axis p (g : F -> F) (l : list F) i :
  g fzero = fzero -> Forall (fun x => x = fzero) l ->
  plane_map s axis p g i l = l.
Proof.
  intros Hg Hl. revert i. induction Hl as [|x l -> _ IH]; intros i; simpl;
    [reflexivity|].
  rewrite IH. destruct (coord s axis i =? p); rewrite ?Hg; reflexivity.
Qed.

(** A bundle whose detail coefficients are all zero is left as it is,
    whatever the mode, when each step maps zero to zero. *)
Lemma threshold_by_band_fixes_zero tf skip_bands within_axis scaling_factor
    (coefs : bundle F) :
  all_detail_zero coefs ->
  (forall A l p,
     let t := scale_threshold scaling_factor (tf A l p).2 in
     gate_step (tf A l p).1 t fzero = fzero
     /\ shrink_above t fzero = fzero
     /\ zero_within t fzero = fzero
     /\ shrink_below t fzero = fzero) ->
  (threshold_by_band tf skip_bands within_axis scaling_factor coefs).1 = coefs.
Proof.
  intros Hzero Hsteps.
  assert (Hk : keeps (fun s => s = coefs)
                 (threshold_by_band tf skip_bands within_axis scaling_factor)
                 (fun _ => True)).
  { apply (threshold_by_band_keeps _ (length coefs)
             (fun g => g fzero = fzero)).
    - intros s ->. reflexivity.
    - intros b g Hb Hg. apply keeps_edit_item_id. intros a Ha.
      destruct a as [sh d]. unfold arr_map. simpl. f_equal.
      apply map_fixes_zero; [exact Hg|]. apply (Hzero b _ Hb Ha).
    - intros b axis p g Hb Hg. apply keeps_edit_item_id. intros a Ha.
      destruct a as [sh d]. unfold map_plane. simpl. f_equal.
      apply plane_map_fixes_zero; [exact Hg|]. apply (Hzero b _ Hb Ha).
    - exact Hsteps. }
  apply (Hk coefs eq_refl).
Qed.

End ZeroDetails.

Section ExactThresholding.
Local Open Scope R_scope.

(** Decide the comparisons of a goal, innermost first. *)
Ltac decide_R :=
  repeat (match goal with
          | |- context [bool_decide ?P] =>
              lazymatch P with
              | context [bool_decide _] => fail
              | _ => destruct (bool_decide_reflect P)
              end
          end; cbv iota);
  repeat match goal with
         | H : context [Rabs ?x] |- _ =>
             revert H; unfold Rabs; destruct (Rcase_abs x); intro
         | |- context [Rabs ?x] => unfold Rabs; destruct (Rcase_abs x)
         end;
  try lra.

(** At a threshold that is not negative, each step leaves zero at zero. *)
Lemma steps_fix_zero (c t : R) :
  0 <= t ->
  gate_step c t 0 = 0 /\ shrink_above t 0 = 0
  /\ zero_within t 0 = 0 /\ shrink_below t 0 = 0.
Proof.
  intros Ht. unfold gate_step, shrink_above, zero_within, shrink_below.
  simpl. repeat split; decide_R.
Qed.

(** What the three steps of whole-band mode make of one value. *)
Lemma soft_steps_cases (t x : R) :
  0 <= t ->
  (2 * t < x -> soft_steps t x = x - t)
  /\ (- t <= x <= 2 * t -> soft_steps t x = 0)
  /\ (x < - t -> soft_steps t x = x + t).
Proof.
  intros Ht. unfold soft_steps, shrink_above, zero_within, shrink_below.
  simpl. repeat split; intros Hx; decide_R.
Qed.

(** They are soft thresholding except on the values between the threshold
    and twice the threshold, which they send to zero. *)
Lemma soft_steps_vs_soft_threshold (t x : R) :
  0 <= t ->
  (t < x <= 2 * t -> soft_steps t x = 0 /\ soft_threshold t x = x - t)
  /\ (~ (t < x <= 2 * t) -> soft_steps t x = soft_threshold t x).
Proof.
  intros Ht.
  unfold soft_threshold, soft_steps, shrink_above, zero_within, shrink_below.
  simpl. split; intros Hx; [split|]; decide_R.
Qed.

Lemma whole_band_zeroes tf sf (detail : bundle R) (low : ndarray R) :
  (forall A l p, 0 <= scale_threshold sf (tf A l p).2) ->
  within_threshold tf sf (detail ++ [low]) ->
  all_detail_zero (imap (edited_band tf [] sf) detail ++ [low]).
Proof.
  intros Hpos Hreach b cb Hb Hlk.
  rewrite length_app, length_imap in Hb. simpl in Hb.
  rewrite lookup_app_l in Hlk by (rewrite length_imap; lia).
  rewrite list_lookup_imap in Hlk.
  destruct (detail !! b) as [cb0|] eqn:Hb0; [|discriminate].
  simpl in Hlk. injection Hlk as <-.
  unfold edited_band.
  rewrite bool_decide_eq_false_2 by apply not_elem_of_nil.
  simpl. apply Forall_map.
  assert (Hin : (detail ++ [low]) !! b = Some cb0).
  { rewrite lookup_app_l by lia. exact Hb0. }
  assert (Hb' : (b < length (detail ++ [low]) - 1)%nat).
  { rewrite length_app. simpl. lia. }
  eapply Forall_impl; [apply (Hreach b cb0 Hb' Hin)|].
  intros x Hx. simpl.
  assert (Ht : 0 <= band_threshold_of tf sf b cb0) by apply Hpos.
  apply (soft_steps_cases (band_threshold_of tf sf b cb0) x Ht). lra.
Qed.

(** C6, as amended.  With thresholds that are never negative, a scaling
    factor that is not zero and no skipped band, a second application of
    [threshold_by_band] with the same arguments leaves the bundle as the
    first left it whenever the first has left every detail coefficient at
    zero; in whole-band mode it has done so when every value of a detail
    band is inside [[-threshold, threshold]] for the threshold of that
    band. *)
Theorem threshold_by_band_twice :
  forall (tf : ndarray R -> nat -> option Z -> R * R)
         (within_axis : option Z) (sf : option R) (coefs : bundle R),
    sf <> Some 0 ->
    (forall A l p, 0 <= scale_threshold sf (tf A l p).2) ->
    (all_detail_zero (threshold_by_band tf [] within_axis sf coefs).1 ->
     (threshold_by_band tf [] within_axis sf
        (threshold_by_band tf [] within_axis sf coefs).1).1
     = (threshold_by_band tf [] within_axis sf coefs).1)
    /\ (within_axis = None -> within_threshold tf sf coefs ->
        (threshold_by_band tf [] within_axis sf
           (threshold_by_band tf [] within_axis sf coefs).1).1
        = (threshold_by_band tf [] within_axis sf coefs).1).
Proof.
  intros tf wa sf coefs _ Hpos.
  assert (Hfix : forall s, all_detail_zero s ->
            (threshold_by_band tf [] wa sf s).1 = s).
  { intros s Hs. apply threshold_by_band_fixes_zero; [exact Hs|].
    intros A l p. apply steps_fix_zero, Hpos. }
  split; [apply Hfix|].
  intros -> Hreach.
  destruct (supported_bundle_dec coefs) as [Hsup|Hns].
  - assert (Hne : coefs <> []).
    { destruct Hsup as (c0 & Hc0 & _). intros ->. discriminate. }
    destruct (exists_last Hne) as (detail & low & ->).
    rewrite (threshold_by_band_whole_band tf [] sf detail low Hsup). simpl.
    apply Hfix, whole_band_zeroes; assumption.
  - rewrite !(threshold_by_band_unsupported tf [] None sf coefs Hns).
    reflexivity.
Qed.

End ExactThresholding.

(* ------------------------------------------------------------------ *)
(** ** The number of bands of the forward transform                    *)
(* ------------------------------------------------------------------ *)

Section BandCount.
Context {F : Type}.
Variables modwt1 modwt2 modwt3 : ndarray F -> string -> Z -> result (bundle F).

(** The derived number of bands is positive from a smallest dimension of
    nine on. *)
Lemma derived_bands_not_positive (m : nat) :
  0 < m -> ((Z.log2_up (Z.of_nat m) - 3 <= 0)%Z <-> m <= 8).
Proof.
  intros Hm. split.
  - intros Hl.
    assert (Hp : (Z.of_nat m <= 2 ^ 3)%Z).
    { apply Z.log2_up_le_pow2; lia. }
    change (2 ^ 3)%Z with 8%Z in Hp. lia.
  - intros Hle.
    assert (Hp : (Z.log2_up (Z.of_nat m) <= 3)%Z).
    { apply Z.log2_up_le_pow2; [lia|]. change (2 ^ 3)%Z with 8%Z. lia. }
    lia.
Qed.


(** With an axis of no element and no number of bands given, the
    conversion of [-inf] to an integer fails first. *)
Lemma modwt_transform_empty_axis (data : ndarray F) (wavelet_type : string) :
  np_min (shape data) = Ok 0 ->
  modwt_transform modwt1 modwt2 modwt3 data wavelet_type None
  = Raise OverflowError.
Proof. intros Hmin. unfold modwt_transform. rewrite Hmin. reflexivity. Qed.

End BandCount.

(* ------------------------------------------------------------------ *)
(** ** The plane index of per-plane mode                               *)
(* ------------------------------------------------------------------ *)

Section PlaneIndex.
Local Open Scope Z_scope.

Lemma wrap_int64_small (z : Z) :
  - 2 ^ 63 <= z < 2 ^ 63 -> wrap_int64 z = z.
Proof.
  intros Hz. unfold wrap_int64. rewrite Z.mod_small; lia.
Qed.

(** When the offset [2^(band_level + 1)] does not exceed the number of
    planes, one wrap suffices: the index is the circular one. *)
Lemma adjusted_plane_one_wrap (num_planes p band_level : nat) :
  (p < num_planes)%nat ->
  2 ^ (Z.of_nat band_level + 1) <= Z.of_nat num_planes ->
  Z.of_nat num_planes < 2 ^ 63 ->
  adjusted_plane num_planes p band_level
  = (Z.of_nat p - 2 ^ (Z.of_nat band_level + 1)) mod Z.of_nat num_planes
  /\ 0 <= adjusted_plane num_planes p band_level < Z.of_nat num_planes.
Proof.
  intros Hp Hoff Hn.
  assert (Hpow : 0 < 2 ^ (Z.of_nat band_level + 1)).
  { apply Z.pow_pos_nonneg; lia. }
  set (o := 2 ^ (Z.of_nat band_level + 1)) in *.
  assert (Ha : adjusted_plane num_planes p band_level
               = if Z.of_nat p - o <? 0
                 then Z.of_nat p - o + Z.of_nat num_planes
                 else Z.of_nat p - o).
  { unfold adjusted_plane, roll_offset. fold o.
    rewrite (wrap_int64_small o) by lia.
    rewrite (wrap_int64_small (Z.of_nat p - o)) by lia.
    rewrite (proj2 (Z.leb_gt _ _)) by lia.
    destruct (Z.ltb_spec (Z.of_nat p - o) 0); [|reflexivity].
    apply wrap_int64_small. lia. }
  rewrite Ha. destruct (Z.ltb_spec (Z.of_nat p - o) 0).
  - split; [|lia].
    apply (Z.mod_unique _ _ (-1)); lia.
  - split; [|lia]. symmetry. apply Z.mod_small. lia.
Qed.

End PlaneIndex.

(* ------------------------------------------------------------------ *)
(** ** The code run on [float64] inputs                                *)
(* ------------------------------------------------------------------ *)

Section Runs.
Local Open Scope float_scope.

(** C1.  On a two-dimensional bundle the band at index 3 has level
    [floor(3/3) = 1], yet [threshold_by_band] takes its level to be
    [3/7 = 0]: with [skip_bands = [1]] it thresholds that band (5 becomes 3
    at threshold 2) instead of skipping it. *)
Theorem band_level_of_2d_bundle :
  band_level 3 = 0%nat /\ (3 / 3 = 1)%nat /\
  (threshold_by_band (fixed 0 2) [1%nat] None None bundle_2d).1 !! 3%nat
  = Some (mk_ndarray [2; 2]%nat [3; 3; 3; 3]).
Proof. vm_compute. repeat split. Qed.

(** C2.  With three planes, at band level 1 (offset 4) and plane 0, the
    single wrap of the code leaves the index at [-1]: on the
    three-dimensional bundle, whose bands 7 to 13 are of level 1,
    [threshold_func] is called with a negative plane index for plane 0 of
    these bands, which [by_plane_sign] answers with the threshold that
    zeroes the plane. *)
Theorem adjusted_plane_out_of_range :
  adjusted_plane 3 0 1 = (-1)%Z /\
  (threshold_by_band by_plane_sign [] (Some 2%Z) None bundle_3d).1 !! 7%nat
  = Some (mk_ndarray [1; 1; 3]%nat [0; 1; 1]).
Proof. vm_compute. repeat split. Qed.

(** C5.  In whole-band mode, at threshold 2, the value 3 is above the
    threshold and soft thresholding reduces it to 1; the code reduces it to
    1 and then, in its second step, finds 1 within the threshold and sets
    it to 0. *)
Theorem whole_band_zeroes_up_to_twice_threshold :
  (threshold_by_band (fixed 0 2) [] None None [vec [3]; vec [0]]).1
  = [vec [0]; vec [0]]
  /\ arr_map (soft_threshold 2) (vec [3]) = vec [1].
Proof. vm_compute. repeat split. Qed.

(** C6, refuted as stated.  At the fixed threshold 1 the value 5 is 4 after
    one application and 3 after two. *)
Lemma threshold_by_band_not_idempotent :
  (threshold_by_band (fixed 0 1) [] None None
     (threshold_by_band (fixed 0 1) [] None None [vec [5]; vec [0]]).1).1
  <> (threshold_by_band (fixed 0 1) [] None None [vec [5]; vec [0]]).1.
Proof.
  intros Heq.
  assert (Hb := f_equal
    (fun l : bundle float =>
       match l with
       | a :: _ => match data a with
                   | x :: _ => PrimFloat.ltb x 3.5
                   | [] => false
                   end
       | [] => false
       end) Heq).
  vm_compute in Hb. discriminate Hb.
Qed.

(** C7.  With a bundle, a numerator and a denominator of two arrays and a
    normalization of one, no assertion fails: band 0 is replaced, and the
    call ends in [IndexError] at band 1.  With a normalization of three
    arrays the call returns. *)
Theorem multiplicative_update_normalization_unchecked :
  multiplicative_update [vec [1]; vec [1]] [vec [1]; vec [1]] [vec [1]] 1
    [vec [6]; vec [6]]
  = ([vec [3]; vec [6]], Raise IndexError)
  /\ multiplicative_update [vec [1]; vec [1]] [vec [1]; vec [1]]
       [vec [1]; vec [1]; vec [1]] 1 [vec [6]; vec [6]]
     = ([vec [3]; vec [3]], Ok tt).
Proof. vm_compute. repeat split. Qed.

(** The norm of the additive update in [float64]: five ones at
    [alpha = 2.0] give [2 * sqrt 5]. *)
Lemma update_norm_of_ones :
  update [vec [1; 1; 1]; vec [1; 1]] 2 [vec [0; 0; 0]; vec [5; 5]]
  = ([vec [2; 2; 2]; vec [7; 7]], Ok (2 * PrimFloat.sqrt 5)).
Proof. vm_compute. reflexivity. Qed.

End Runs.

(* ------------------------------------------------------------------ *)
(** ** The theorems at concrete inputs                                 *)
(* ------------------------------------------------------------------ *)

Section Instances.

(** A handle fixed on the shape [(2,)], with a probe bundle of two arrays,
    and a bundle of two arrays of that shape. *)
Lemma vec_to_coefs_coefs_to_vec_witness :
  exists v,
    coefs_to_vec [vec [1; 2]; vec [3; 4]]%float = Ok v /\
    vec_to_coefs (mk_UWT "d8"%string None [2] [np_zeros [2]; np_zeros [2]]) v
    = Ok [vec [1; 2]; vec [3; 4]]%float.
Proof.
  apply (vec_to_coefs_coefs_to_vec
           (mk_UWT "d8"%string None [2] [np_zeros [2]; np_zeros [2]])
           [vec [1; 2]; vec [3; 4]]%float).
  - simpl. lia.
  - reflexivity.
  - repeat constructor.
Defined.

(** The default range, on a three-dimensional bundle. *)
Lemma low_pass_spatial_filter_empty_range_witness :
  (low_pass_spatial_filter 2 (0, 0)%Z 1 bundle_3d).1 = bundle_3d.
Proof.
  apply (low_pass_spatial_filter_empty_range bundle_3d 2 0 0 1). lia.
Defined.


(** An update of two ones, added twice to two zeros. *)
Lemma update_adds_and_reports_norm_witness :
  update [ones_R] 2%R [zeros_R]
  = (zip_with (add_scaled 2%R) [zeros_R] [ones_R],
     Ok (sqrt (sum_of_squares (applied_deltas 2 [ones_R]))))
  /\ sqrt (sum_of_squares (applied_deltas 2 [ones_R]))
     = (2 * sqrt (INR (element_count [ones_R])))%R.
Proof.
  destruct (update_adds_and_reports_norm 2%R [zeros_R] [ones_R])
    as [Hrun Hnorm].
  - repeat constructor.
  - split; [exact Hrun|]. apply Hnorm; [repeat constructor|reflexivity].
Defined.

(** At the fixed threshold 1, a detail band holding 1/2 and -1. *)
Lemma threshold_by_band_twice_witness :
  (threshold_by_band (fixed 0 1)%R [] None None
     (threshold_by_band (fixed 0 1)%R [] None None gentle_bundle_R).1).1
  = (threshold_by_band (fixed 0 1)%R [] None None gentle_bundle_R).1.
Proof.
  apply (threshold_by_band_twice (fixed 0 1)%R None None gentle_bundle_R).
  - discriminate.
  - intros A l p. simpl. lra.
  - reflexivity.
  - intros b cb Hb Hlk. simpl in Hb.
    assert (b = 0) as -> by lia. injection Hlk as <-.
    unfold band_threshold_of. simpl.
    repeat constructor; lra.
Defined.

End Instances.

(* ------------------------------------------------------------------ *)
(** ** What the band editors leave alone                               *)
(* ------------------------------------------------------------------ *)

Section EditorsFrame.
Context {F : Type} `{Scalar F}.

(** The traversal of [threshold_by_band], with what is known where an edit
    is made: the band is a detail band whose level is not skipped, and in
    per-plane mode the view of the plane was taken ([V] holds of it). *)
Lemma threshold_by_band_keeps_where (I : bundle F -> Prop) (n : nat)
    (V : nat -> nat -> nat -> Prop) tf skip_bands within_axis scaling_factor :
  (forall s, I s -> length s = n) ->
  (within_axis = None ->
   forall b g, b < n - 1 -> band_level b ∉ skip_bands ->
     keeps I (edit_item b (arr_map g)) (fun _ => True)) ->
  (within_axis <> None ->
   forall b axis p, b < n - 1 ->
     keeps I (get_view b axis p) (fun _ => V b axis p)) ->
  (within_axis <> None ->
   forall b axis p g, b < n - 1 -> band_level b ∉ skip_bands -> V b axis p ->
     keeps I (edit_view b axis p g) (fun _ => True)) ->
  keeps I (threshold_by_band tf skip_bands within_axis scaling_factor)
        (fun _ => True).
Proof.
  intros Hlen Hband Hview Hplane. unfold threshold_by_band.
  eapply keeps_bind; [apply keeps_get_item|]. intros c0 _.
  eapply keeps_bind with (Q := fun _ => True).
  { destruct (length (shape c0)) as [|[|[|[|?]]]];
      first [apply keeps_raise
            | eapply keeps_weaken; [apply keeps_ret|]; done]. }
  intros _ _.
  eapply keeps_bind; [apply (keeps_len _ n), Hlen|].
  intros ? ->. apply keeps_for_xrange. intros b Hb.
  destruct (bool_decide_reflect (band_level b ∈ skip_bands)) as [|Hns].
  { eapply keeps_weaken; [apply keeps_ret|]. done. }
  destruct within_axis as [wa|].
  - eapply keeps_bind; [apply keeps_get_item|]. intros cb _.
    eapply keeps_bind; [apply keeps_lift|]. intros num_planes _.
    apply keeps_for_xrange. intros p _.
    assert (Hwa : Some wa <> None) by discriminate.
    eapply keeps_bind; [apply (Hview Hwa b _ p Hb)|]. intros A HV.
    destruct (tf A (band_level b) _) as [c t].
    repeat (eapply keeps_bind; [apply (Hplane Hwa b _ p _ Hb Hns HV)|];
            intros _ _).
    apply (Hplane Hwa b _ p _ Hb Hns HV).
  - eapply keeps_bind; [apply keeps_get_item|]. intros cb _.
    destruct (tf cb (band_level b) None) as [c t].
    repeat (eapply keeps_bind; [apply (Hband eq_refl b _ Hb Hns)|];
            intros _ _).
    apply (Hband eq_refl b _ Hb Hns).
Qed.

(** The traversal of [low_pass_spatial_filter], likewise: a plane is
    assigned in a detail band of level below [max_band], at an index
    strictly between the bounds, after its view was taken. *)
Lemma low_pass_spatial_filter_keeps_where (I : bundle F -> Prop) (n : nat)
    (V : nat -> nat -> nat -> Prop) within_axis (lo hi max_band : Z) :
  (forall s, I s -> length s = n) ->
  (forall b axis p, b < n - 1 ->
     keeps I (get_view b axis p) (fun _ => V b axis p)) ->
  (forall b axis p, b < n - 1 ->
     (Z.of_nat (band_level b) < max_band)%Z ->
     (lo < Z.of_nat p < hi)%Z -> V b axis p ->
     keeps I (edit_view b axis p (fun _ => fzero)) (fun _ => True)) ->
  keeps I (low_pass_spatial_filter within_axis (lo, hi) max_band)
        (fun _ => True).
Proof.
  intros Hlen Hview Hplane. unfold low_pass_spatial_filter.
  eapply keeps_bind; [apply (keeps_len _ n), Hlen|].
  intros ? ->. apply keeps_for_xrange. intros b Hb.
  eapply keeps_bind; [apply keeps_get_item|]. intros cb _.
  eapply keeps_bind; [apply keeps_lift|]. intros num_planes _.
  apply keeps_for_xrange. intros p _.
  eapply keeps_bind; [apply (Hview b _ p Hb)|]. intros A HV. simpl.
  destruct (Z.ltb_spec lo (Z.of_nat p)); simpl;
    [|eapply keeps_weaken; [apply keeps_ret|]; done].
  destruct (Z.ltb_spec (Z.of_nat p) hi); simpl;
    [|eapply keeps_weaken; [apply keeps_ret|]; done].
  destruct (Z.ltb_spec (Z.of_nat (band_level b)) max_band); simpl;
    [|eapply keeps_weaken; [apply keeps_ret|]; done].
  apply Hplane; try assumption. lia.
Qed.

Lemma keeps_edit_item_shapes (s0 : bundle F) b f :
  (forall a, shape (f a) = shape a) ->
  keeps (fun s : bundle F => shapes s = shapes s0) (edit_item b f) (fun _ => True).
Proof.
  intros Hf s Hs. unfold edit_item.
  destruct (s !! b) as [a|] eqn:Hb; simpl; [|done].
  split; [|done]. rewrite <- Hs. unfold shapes.
  rewrite list_fmap_insert, Hf. apply list_insert_id.
  rewrite list_lookup_fmap, Hb. reflexivity.
Qed.

Lemma shapes_length (s s0 : bundle F) : shapes s = shapes s0 -> length s = length s0.
Proof.
  intros Hs. apply (f_equal length) in Hs. unfold shapes in Hs.
  rewrite !length_map in Hs. exact Hs.
Qed.

(** X1.  [threshold_by_band] and [low_pass_spatial_filter] edit values
    only: whatever the arguments, and whether the call returns or raises,
    the bundle keeps its length and every array keeps its shape. *)
Theorem band_editors_keep_shapes :
  forall (coefs : bundle F),
    (forall tf skip_bands within_axis scaling_factor,
        shapes (threshold_by_band tf skip_bands within_axis scaling_factor
                  coefs).1 = shapes coefs) /\
    (forall within_axis range max_band,
        shapes (low_pass_spatial_filter within_axis range max_band coefs).1
        = shapes coefs).
Proof.
  intros coefs. split.
  - intros tf sk wa sf.
    refine (proj1 (threshold_by_band_keeps_where
                     (fun s => shapes s = shapes coefs) (length coefs)
                     (fun _ _ _ => True) tf sk wa sf _ _ _ _ coefs eq_refl)).
    + intros s. apply shapes_length.
    + intros _ b g _ _. apply keeps_edit_item_shapes. reflexivity.
    + intros _ b axis p _. apply keeps_get_view.
    + intros _ b axis p g _ _ _. apply keeps_edit_item_shapes. reflexivity.
  - intros wa [lo hi] mb.
    refine (proj1 (low_pass_spatial_filter_keeps_where
                     (fun s => shapes s = shapes coefs) (length coefs)
                     (fun _ _ _ => True) wa lo hi mb _ _ _ coefs eq_refl)).
    + intros s. apply shapes_length.
    + intros b axis p _. apply keeps_get_view.
    + intros b axis p _ _ _ _. apply keeps_edit_item_shapes. reflexivity.
Qed.

Lemma keeps_edit_item_other (s0 : bundle F) b0 b f :
  b <> b0 ->
  keeps (same_at b0 s0) (edit_item b f) (fun _ => True).
Proof.
  intros Hne s [Hlen Hat]. unfold edit_item.
  destruct (s !! b) as [a|]; simpl; [|done].
  split; [|done]. split.
  - rewrite length_insert. exact Hlen.
  - rewrite list_lookup_insert_ne by exact Hne. exact Hat.
Qed.

(** X2.  A band whose level is in [skip_bands] comes out of
    [threshold_by_band] as it went in, in either mode, whatever the other
    bands do to the call. *)
Theorem threshold_by_band_skips :
  forall (coefs : bundle F) tf skip_bands within_axis scaling_factor
         (b0 : nat),
    band_level b0 ∈ skip_bands ->
    (threshold_by_band tf skip_bands within_axis scaling_factor coefs).1 !! b0
    = coefs !! b0.
Proof.
  intros coefs tf sk wa sf b0 Hskip.
  refine (proj2 (proj1 (threshold_by_band_keeps_where
                   (same_at b0 coefs) (length coefs)
                   (fun _ _ _ => True) tf sk wa sf _ _ _ _ coefs _))).
  - intros s [Hs _]. exact Hs.
  - intros _ b g _ Hns. apply keeps_edit_item_other.
    intros ->. exact (Hns Hskip).
  - intros _ b axis p _. apply keeps_get_view.
  - intros _ b axis p g _ Hns _. apply keeps_edit_item_other.
    intros ->. exact (Hns Hskip).
  - split; reflexivity.
Qed.

(** X3.  [low_pass_spatial_filter] leaves every band of level [max_band]
    or more as it was; with [max_band <= 0] that is every band. *)
Theorem low_pass_spatial_filter_above_max_band :
  forall (coefs : bundle F) within_axis range (max_band : Z) (b0 : nat),
    (max_band <= Z.of_nat (band_level b0))%Z ->
    (low_pass_spatial_filter within_axis range max_band coefs).1 !! b0
    = coefs !! b0.
Proof.
  intros coefs wa [lo hi] mb b0 Hmax.
  refine (proj2 (proj1 (low_pass_spatial_filter_keeps_where
                   (same_at b0 coefs) (length coefs)
                   (fun _ _ _ => True) wa lo hi mb _ _ _ coefs _))).
  - intros s [Hs _]. exact Hs.
  - intros b axis p _. apply keeps_get_view.
  - intros b axis p _ Hlt _ _. apply keeps_edit_item_other.
    intros ->. lia.
  - split; reflexivity.
Qed.

(** X4.  The three-index slices need three dimensions: on a bundle whose
    arrays all have fewer, per-plane thresholding and the spatial mask
    edit nothing (they end at the first plane they try to take). *)
Theorem plane_edits_need_three_dimensions :
  forall (coefs : bundle F),
    Forall (fun a => length (shape a) < 3) coefs ->
    (forall tf skip_bands within_axis scaling_factor,
        (threshold_by_band tf skip_bands (Some within_axis) scaling_factor
           coefs).1 = coefs) /\
    (forall within_axis range max_band,
        (low_pass_spatial_filter within_axis range max_band coefs).1
        = coefs).
Proof.
  intros coefs Hdims.
  assert (Hview : forall b axis p,
             keeps (fun s => s = coefs) (get_view b axis p)
                   (fun _ => False)).
  { intros b axis p s ->. unfold get_view. rewrite run_bind.
    unfold get_item. destruct (coefs !! b) as [cb|] eqn:Hb; simpl; [|done].
    assert (Hcb : length (shape cb) < 3).
    { apply (proj1 (Forall_lookup _ _) Hdims b cb Hb). }
    unfold plane_ok. rewrite (proj2 (Nat.leb_gt 3 _)) by exact Hcb.
    simpl. done. }
  split.
  - intros tf sk wa sf.
    refine (proj1 (threshold_by_band_keeps_where
                     (fun s => s = coefs) (length coefs)
                     (fun _ _ _ => False) tf sk (Some wa) sf _ _ _ _
                     coefs eq_refl)).
    + intros s ->. reflexivity.
    + intros [=].
    + intros _ b axis p _. apply Hview.
    + intros _ b axis p g _ _ [].
  - intros wa [lo hi] mb.
    refine (proj1 (low_pass_spatial_filter_keeps_where
                     (fun s => s = coefs) (length coefs)
                     (fun _ _ _ => False) wa lo hi mb _ _ _ coefs eq_refl)).
    + intros s ->. reflexivity.
    + intros b axis p _. apply Hview.
    + intros b axis p _ _ _ [].
Qed.

End EditorsFrame.

(* ------------------------------------------------------------------ *)
(** ** Unflattening, in full                                           *)
(* ------------------------------------------------------------------ *)

Section Unvectorize.
Context {F : Type}.
Implicit Types (v : list F) (vs : list (list F)).

Lemma length_chunks sz n v : length (chunks sz n v) = n.
Proof.
  revert v. induction n as [|n IH]; intros v; simpl; [reflexivity|].
  rewrite IH. reflexivity.
Qed.

Lemma chunks_uniform sz n v :
  n * sz <= length v ->
  Forall (fun c => length c = sz) (chunks sz n v).
Proof.
  revert v. induction n as [|n IH]; intros v Hv; simpl; constructor.
  - rewrite length_take. simpl in Hv. lia.
  - apply IH. rewrite length_drop. simpl in Hv. lia.
Qed.

Lemma concat_chunks sz n v :
  length v = n * sz -> concat (chunks sz n v) = v.
Proof.
  revert v. induction n as [|n IH]; intros v Hv; simpl.
  - simpl in Hv. destruct v; [reflexivity|discriminate].
  - rewrite IH; [apply take_drop|].
    rewrite length_drop. simpl in Hv. lia.
Qed.

Lemma map_result_reshape_ok (S : list nat) vs :
  Forall (fun c => length c = prod_shape S) vs ->
  map_result (reshape_f S) vs = Ok (map (mk_ndarray S) vs).
Proof.
  induction 1 as [|c vs Hc _ IH]; simpl; [reflexivity|].
  rewrite IH. unfold reshape_f. rewrite Hc, Nat.eqb_refl. reflexivity.
Qed.

(** [vec_to_coefs] in full. *)
Lemma vec_to_coefs_run :
  forall (self : UndecimatedWaveletTransform F) (coef_vec : list F),
    vec_to_coefs self coef_vec
    = if decide (length (example_coefs self) = 0)
      then Raise ZeroDivisionError
      else if decide (length coef_vec
                      = length (example_coefs self)
                        * prod_shape (img_shape self))
      then Ok (map (mk_ndarray (img_shape self))
                   (chunks (prod_shape (img_shape self))
                           (length (example_coefs self)) coef_vec))
      else Raise ValueError.
Proof.
  intros self v. unfold vec_to_coefs, np_split.
  set (n := length (example_coefs self)).
  set (S := img_shape self).
  destruct (decide (n = 0)) as [->|Hn]; [reflexivity|].
  rewrite (proj2 (Nat.eqb_neq n 0) Hn).
  destruct (Nat.eqb_spec (length v mod n) 0) as [Hmod|Hmod]; simpl.
  - assert (Hlen : length v = n * (length v / n)).
    { apply Nat.Div0.div_exact. exact Hmod. }
    destruct (decide (length v = n * prod_shape S)) as [Hok|Hbad].
    + assert (Hsz : length v / n = prod_shape S).
      { rewrite Hok, Nat.mul_comm. apply Nat.div_mul. exact Hn. }
      rewrite Hsz. apply map_result_reshape_ok, chunks_uniform. lia.
    + assert (Hsz : length v / n <> prod_shape S).
      { intros Hsz. apply Hbad. rewrite <- Hsz. exact Hlen. }
      set (sz := length v / n) in *.
      assert (Hfit : sz <= length v).
      { rewrite Hlen. destruct n; [congruence|]. simpl. lia. }
      clearbody sz. destruct n as [|n]; [congruence|].
      cbn [chunks map_result]. unfold reshape_f. rewrite length_take.
      rewrite (proj2 (Nat.eqb_neq _ _)); [reflexivity|]. lia.
  - destruct (decide (length v = n * prod_shape S)) as [Hok|Hbad];
      [|reflexivity].
    exfalso. apply Hmod. rewrite Hok, Nat.mul_comm. apply Nat.Div0.mod_mul.
Qed.

(** X5.  When [vec_to_coefs] returns and how it fails: with an empty
    probe bundle the split divides by zero; otherwise the call returns
    exactly when the vector holds [len(example_coefs)] times
    [prod(img_shape)] elements, and every other length ends in
    [ValueError]. *)
Theorem vec_to_coefs_outcome :
  forall (self : UndecimatedWaveletTransform F) (coef_vec : list F),
    (length (example_coefs self) = 0 ->
     vec_to_coefs self coef_vec = Raise ZeroDivisionError)
    /\ (0 < length (example_coefs self) ->
        length coef_vec
        <> length (example_coefs self) * prod_shape (img_shape self) ->
        vec_to_coefs self coef_vec = Raise ValueError)
    /\ ((exists B, vec_to_coefs self coef_vec = Ok B)
        <-> 0 < length (example_coefs self)
            /\ length coef_vec
               = length (example_coefs self) * prod_shape (img_shape self)).
Proof.
  intros self v. rewrite vec_to_coefs_run.
  destruct (decide (length (example_coefs self) = 0)) as [Hz|Hz].
  - split; [reflexivity|]. split; [lia|]. split.
    + intros [B [=]].
    + intros [Hpos _]. lia.
  - split; [intros Hz'; contradiction|].
    destruct (decide (length v = _)) as [Hok|Hbad].
    + split; [intros _ Hne; contradiction|]. split.
      * intros _. split; [lia|exact Hok].
      * intros _. eexists. reflexivity.
    + split; [reflexivity|]. split.
      * intros [B [=]].
      * intros [_ Hok]. contradiction.
Qed.

(** X6.  Flattening undoes unflattening: whenever [vec_to_coefs] returns a
    bundle, that bundle has [len(example_coefs)] arrays, each of shape
    [img_shape] with as many elements as the shape says, and
    [coefs_to_vec] returns the vector from it. *)
Theorem coefs_to_vec_vec_to_coefs :
  forall (self : UndecimatedWaveletTransform F) (coef_vec : list F)
         (B : bundle F),
    vec_to_coefs self coef_vec = Ok B ->
    coefs_to_vec B = Ok coef_vec
    /\ length B = length (example_coefs self)
    /\ Forall (fun a => shape a = img_shape self /\ wf_array a) B.
Proof.
  intros self v B. rewrite vec_to_coefs_run.
  set (n := length (example_coefs self)).
  set (S := img_shape self).
  destruct (decide (n = 0)) as [|Hn]; [discriminate|].
  destruct (decide (length v = n * prod_shape S)) as [Hok|]; [|discriminate].
  intros [= <-].
  assert (Hch : Forall (fun c => length c = prod_shape S)
                       (chunks (prod_shape S) n v)).
  { apply chunks_uniform. lia. }
  split; [|split].
  - unfold coefs_to_vec, np_hstack. rewrite map_map. simpl.
    rewrite map_id.
    destruct (chunks (prod_shape S) n v) eqn:Hc.
    + apply (f_equal length) in Hc. rewrite length_chunks in Hc.
      simpl in Hc. congruence.
    + rewrite <- Hc, concat_chunks by exact Hok. reflexivity.
  - rewrite length_map. apply length_chunks.
  - apply Forall_map. eapply Forall_impl; [exact Hch|].
    intros c Hc. split; [reflexivity|exact Hc].
Qed.

End Unvectorize.

(* ------------------------------------------------------------------ *)
(** ** The update operators, further                                   *)
(* ------------------------------------------------------------------ *)

Section UpdateOperators.
Context {F : Type} `{Scalar F}.

Lemma keeps_get_item_shape (s0 : bundle F) b :
  keeps (fun s : bundle F => shapes s = shapes s0) (get_item b)
        (fun cb : ndarray F => shapes s0 !! b = Some (shape cb)).
Proof.
  intros s Hs. unfold get_item. destruct (s !! b) as [a|] eqn:Hb; simpl.
  - split; [exact Hs|]. intros cb [= <-]. rewrite <- Hs. unfold shapes.
    rewrite list_lookup_fmap, Hb. reflexivity.
  - split; [exact Hs|]. intros cb [=].
Qed.

Lemma keeps_item (I : bundle F -> Prop) (l : bundle F) b :
  keeps I (item l b) (fun _ => True).
Proof.
  unfold item. destruct (l !! b).
  - eapply keeps_weaken; [apply keeps_ret|]. done.
  - apply keeps_raise.
Qed.

Lemma keeps_replace_item_shape (s0 : bundle F) b (new : ndarray F) :
  shapes s0 !! b = Some (shape new) ->
  keeps (fun s : bundle F => shapes s = shapes s0) (edit_item b (fun _ => new))
        (fun _ => True).
Proof.
  intros Hb s Hs. unfold edit_item.
  destruct (s !! b) as [a|]; simpl; [|done].
  split; [|done]. rewrite <- Hs in *. unfold shapes in *.
  rewrite list_fmap_insert. apply list_insert_id. exact Hb.
Qed.

Lemma arr_zip_shape (f : F -> F -> F) (a b r : ndarray F) :
  arr_zip f a b = Ok r -> shape r = shape a.
Proof.
  unfold arr_zip. destruct (decide _); intros [= <-]. reflexivity.
Qed.

(** X7.  On operands that share one shape with the arrays of the bundle,
    [update] and [multiplicative_update] change values only: whatever the
    lengths of the operand lists, and whether the call returns or raises,
    the bundle keeps its length and every array keeps its shape. *)
Theorem update_operators_keep_shapes :
  forall (sh : list nat) (coefs : bundle F),
    (forall upd alpha,
        Forall (fun a => shape a = sh) (coefs ++ upd) ->
        shapes (update upd alpha coefs).1 = shapes coefs) /\
    (forall numerator denominator normalization alpha,
        Forall (fun a => shape a = sh)
               (coefs ++ numerator ++ denominator ++ normalization) ->
        shapes (multiplicative_update numerator denominator normalization
                  alpha coefs).1 = shapes coefs).
Proof.
  intros sh coefs. split.
  - intros upd alpha _.
    assert (Hk : keeps (fun s => shapes s = shapes coefs)
                       (update upd alpha) (fun _ => True)).
    { unfold update.
      eapply keeps_bind;
        [apply (keeps_len _ (length coefs)); intros s; apply shapes_length|].
      intros n ->. destruct (negb _); [apply keeps_raise|].
      eapply keeps_bind with (Q := fun _ => True).
      - apply keeps_for_each. intros b acc _.
        eapply keeps_bind; [apply keeps_item|]. intros u _. cbv zeta.
        eapply keeps_bind; [apply keeps_get_item_shape|]. intros cb Hcb.
        eapply keeps_bind; [apply keeps_lift|]. intros sum Hsum.
        eapply keeps_bind.
        + apply keeps_replace_item_shape.
          rewrite (arr_zip_shape _ _ _ _ Hsum). exact Hcb.
        + intros _ _. eapply keeps_weaken; [apply keeps_ret|]. done.
      - intros sq _. eapply keeps_weaken; [apply keeps_ret|]. done. }
    apply (Hk coefs eq_refl).
  - intros nu de no alpha _.
    assert (Hk : keeps (fun s => shapes s = shapes coefs)
                       (multiplicative_update nu de no alpha)
                       (fun _ => True)).
    { unfold multiplicative_update.
      eapply keeps_bind;
        [apply (keeps_len _ (length coefs)); intros s; apply shapes_length|].
      intros n ->. destruct (negb _); [apply keeps_raise|].
      apply keeps_for_xrange. intros b _.
      eapply keeps_bind; [apply keeps_get_item_shape|]. intros cb Hcb.
      eapply keeps_bind; [apply keeps_item|]. intros a1 _.
      eapply keeps_bind; [apply keeps_lift|]. intros t1 Ht1.
      eapply keeps_bind; [apply keeps_item|]. intros a2 _.
      eapply keeps_bind; [apply keeps_lift|]. intros t2 Ht2.
      eapply keeps_bind; [apply keeps_item|]. intros a3 _. cbv zeta.
      eapply keeps_bind; [apply keeps_lift|]. intros t4 Ht4.
      apply keeps_replace_item_shape.
      rewrite (arr_zip_shape _ _ _ _ Ht4), (arr_zip_shape _ _ _ _ Ht2),
        (arr_zip_shape _ _ _ _ Ht1). exact Hcb. }
    apply (Hk coefs eq_refl).
Qed.

Lemma multiplicative_update_loop (sh : list nat) (alpha : F)
    (cs nus des nos pre pre_nu pre_de pre_no : bundle F) :
  length nus = length cs -> length des = length cs ->
  length pre_nu = length pre -> length pre_de = length pre ->
  length pre_no = length pre ->
  Forall (fun a => shape a = sh) (cs ++ nus ++ des ++ nos) ->
  for_each (seq (length pre) (length cs))
    (fun b (_ : unit) =>
       cb ← get_item b;
       nu ← item (pre_nu ++ nus) b;
       t1 ← lift (arr_zip fmul cb nu);
       no ← item (pre_no ++ nos) b;
       t2 ← lift (arr_zip fdiv t1 no);
       de ← item (pre_de ++ des) b;
       t4 ← lift (arr_zip fdiv t2 (arr_map (fun x => fadd x alpha) de));
       edit_item b (fun _ => t4))
    tt (pre ++ cs)
  = (pre ++ mult_bands alpha cs nus nos des,
     if length cs <=? length nos then Ok tt else Raise IndexError).
Proof.
  revert nus des nos pre pre_nu pre_de pre_no.
  induction cs as [|c cs IH];
    intros nus des nos pre pre_nu pre_de pre_no Hnu Hde Hpnu Hpde Hpno Hsh.
  - reflexivity.
  - destruct nus as [|nu nus]; [discriminate|].
    destruct des as [|de des]; [discriminate|].
    cbn [length seq for_each].
    apply Forall_app in Hsh as [Hc Hsh]. apply Forall_cons in Hc as [Hc Hcs].
    apply Forall_app in Hsh as [Hn Hsh]. apply Forall_cons in Hn as [Hn Hns].
    apply Forall_app in Hsh as [Hd Hos]. apply Forall_cons in Hd as [Hd Hds].
    run_with run_get_item_middle.
    run_with (run_item (pre_nu ++ nu :: nus) _ (length pre) nu).
    2:{ rewrite <- Hpnu. apply list_lookup_middle. reflexivity. }
    rewrite ?run_bind, run_lift.
    rewrite arr_zip_same_shape by congruence. cbv beta iota.
    destruct nos as [|no nos].
    + run_with (run_item_None (pre_no ++ []) _ (length pre)).
      2:{ apply lookup_ge_None. rewrite length_app. simpl. lia. }
      reflexivity.
    + apply Forall_cons in Hos as [Ho Hos].
      run_with (run_item (pre_no ++ no :: nos) _ (length pre) no).
      2:{ rewrite <- Hpno. apply list_lookup_middle. reflexivity. }
      rewrite ?run_bind, run_lift.
      rewrite arr_zip_same_shape by (simpl; congruence). cbv beta iota.
      run_with (run_item (pre_de ++ de :: des) _ (length pre) de).
      2:{ rewrite <- Hpde. apply list_lookup_middle. reflexivity. }
      rewrite ?run_bind, run_lift.
      rewrite arr_zip_same_shape by (simpl; congruence). cbv beta iota.
      rewrite run_edit_item_middle. cbv beta iota.
      specialize (IH nus des nos (pre ++ [mult_band alpha c nu no de])
                    (pre_nu ++ [nu]) (pre_de ++ [de]) (pre_no ++ [no])).
      rewrite !length_app in IH. cbn [length] in IH.
      rewrite !Nat.add_1_r, <- !app_assoc in IH. cbn [app] in IH.
      cbn [mult_bands length]. 
      change (S (length cs) <=? S (length nos))
        with (length cs <=? length nos).
      apply IH; try (simpl in *; lia).
      repeat (apply Forall_app; split); assumption.
Qed.

(** X8.  [multiplicative_update] on operands of one shape, with a
    numerator and a denominator as long as the bundle: every band for
    which the normalization lasts is replaced by
    [((coefs[b] * numerator[b]) / normalization[b]) / (denominator[b] +
    alpha)], the low-pass band included; the call returns when the
    normalization is as long as the bundle or longer, and ends in
    [IndexError], with the bands before updated, when it is shorter. *)
Theorem multiplicative_update_run :
  forall (sh : list nat) (alpha : F)
         (coefs numerator denominator normalization : bundle F),
    length coefs = length numerator ->
    length numerator = length denominator ->
    Forall (fun a => shape a = sh)
           (coefs ++ numerator ++ denominator ++ normalization) ->
    multiplicative_update numerator denominator normalization alpha coefs
    = (mult_bands alpha coefs numerator normalization denominator,
       if length coefs <=? length normalization
       then Ok tt else Raise IndexError).
Proof.
  intros sh alpha coefs nus des nos Hnu Hde Hsh.
  unfold multiplicative_update. rewrite run_bind, run_len. cbv beta iota.
  rewrite Hnu, Hde, !Nat.eqb_refl. change (negb (true && true)) with false.
  cbv iota. unfold for_xrange. rewrite <- Hde, <- Hnu. cbv zeta.
  exact (multiplicative_update_loop sh alpha coefs nus des nos [] [] [] []
           (eq_sym Hnu) (eq_sym (eq_trans Hnu Hde)) eq_refl eq_refl eq_refl
           Hsh).
Qed.

End UpdateOperators.

Section UpdateAlgebra.
Local Open Scope R_scope.

Lemma add_scaled_add_scaled (alpha beta : R) (c u : ndarray R) :
  add_scaled beta (add_scaled alpha c u) u = add_scaled (alpha + beta) c u.
Proof.
  unfold add_scaled. simpl. f_equal.
  generalize (data c) (data u). intros dc.
  induction dc as [|x dc IH]; intros [|y du]; simpl; try reflexivity.
  rewrite IH. f_equal. lra.
Qed.

Lemma zip_add_scaled_twice (alpha beta : R) (coefs upd : bundle R) :
  zip_with (add_scaled beta) (zip_with (add_scaled alpha) coefs upd) upd
  = zip_with (add_scaled (alpha + beta)) coefs upd.
Proof.
  revert upd. induction coefs as [|c cs IH]; intros [|u us]; simpl;
    try reflexivity.
  rewrite IH, add_scaled_add_scaled. reflexivity.
Qed.

Lemma Forall2_same_shape_add_scaled (alpha : R) (coefs upd : bundle R) :
  Forall2 (fun c u => shape c = shape u) coefs upd ->
  Forall2 (fun c u => shape c = shape u)
          (zip_with (add_scaled alpha) coefs upd) upd.
Proof.
  induction 1 as [|c u cs us Hcu _ IH]; simpl; constructor; assumption.
Qed.

(** X9.  In exact arithmetic additive updates with one update bundle
    accumulate: a step of [alpha] followed by a step of [beta] leaves the
    bundle a single step of [alpha + beta] leaves, so a step of [-alpha]
    undoes a step of [alpha]. *)
Theorem update_steps_accumulate :
  forall (alpha beta : R) (coefs upd : bundle R),
    Forall2 (fun c u => shape c = shape u) coefs upd ->
    (update upd beta (update upd alpha coefs).1).1
    = (update upd (alpha + beta) coefs).1.
Proof.
  intros alpha beta coefs upd Hsh.
  rewrite (update_run alpha coefs upd Hsh). simpl.
  rewrite (update_run beta _ upd
             (Forall2_same_shape_add_scaled alpha coefs upd Hsh)).
  rewrite (update_run (alpha + beta) coefs upd Hsh). simpl.
  apply zip_add_scaled_twice.
Qed.

Lemma sum_of_squares_nonneg (l : list R) : 0 <= sum_of_squares l.
Proof.
  unfold sum_of_squares, Rsum. induction l as [|x l IH]; simpl; [lra|].
  pose proof (Rle_0_sqr x) as Hx. unfold Rsqr in Hx. lra.
Qed.

Lemma sum_of_squares_scaled (alpha : R) (upd : bundle R) :
  sum_of_squares (applied_deltas alpha upd)
  = (alpha * alpha) * sum_of_squares (applied_deltas 1 upd).
Proof.
  unfold sum_of_squares, applied_deltas.
  induction upd as [|u upd IH]; simpl.
  - unfold Rsum. simpl. lra.
  - rewrite !map_app, !Rsum_app, IH. 
    assert (Hu : Rsum (map (fun x => x * x) (map (Rmult alpha) (data u)))
                 = alpha * alpha
                   * Rsum (map (fun x => x * x) (map (Rmult 1) (data u)))).
    { unfold Rsum. induction (data u) as [|x l IHl]; simpl; [lra|].
      rewrite IHl. lra. }
    rewrite Hu. lra.
Qed.

(** X10.  The norm [update] reports depends on the update bundle and on
    [alpha] alone, never on the bundle updated: each update bundle has one
    number, not negative, which is the norm reported at [alpha = 1] and
    [|alpha|] times which is the norm reported at [alpha], whatever the
    bundle updated, its arrays agreeing in shape with the update band by
    band. *)
Theorem update_norm_scales :
  forall (upd : bundle R),
    exists norm1,
      0 <= norm1
      /\ forall (alpha : R) (coefs : bundle R),
           Forall2 (fun c u => shape c = shape u) coefs upd ->
           (update upd 1 coefs).2 = Ok norm1
           /\ (update upd alpha coefs).2 = Ok (Rabs alpha * norm1).
Proof.
  intros upd.
  exists (sqrt (sum_of_squares (applied_deltas 1 upd))).
  split; [apply sqrt_pos|].
  intros alpha coefs Hsh.
  rewrite !(update_run _ coefs upd Hsh), !fold_add_squares. simpl.
  change fzero with 0. rewrite !Rplus_0_l. split; [reflexivity|].
  rewrite (sum_of_squares_scaled alpha).
  rewrite sqrt_mult.
  - fold (Rsqr alpha). rewrite sqrt_Rsqr_abs. reflexivity.
  - pose proof (Rle_0_sqr alpha) as Ha. unfold Rsqr in Ha. exact Ha.
  - apply sum_of_squares_nonneg.
Qed.

End UpdateAlgebra.

(* ------------------------------------------------------------------ *)
(** ** Whole-band thresholding in exact arithmetic                     *)
(* ------------------------------------------------------------------ *)

Section WholeBandExact.
Local Open Scope R_scope.

Lemma soft_steps_shrunk (t x : R) : 0 <= t -> soft_steps t x = shrunk t x.
Proof.
  intros Ht. unfold shrunk.
  destruct (soft_steps_cases t x Ht) as (Hhi & Hmid & Hlo).
  destruct (decide (2 * t < x)) as [H1|H1]; [apply Hhi, H1|].
  destruct (decide (x < - t)) as [H2|H2]; [apply Hlo, H2|].
  apply Hmid. lra.
Qed.

(** X11.  Whole-band mode in exact arithmetic, on a bundle whose first
    array has one to three dimensions, with thresholds that are never
    negative and a scaling factor that is not zero: the call returns; every detail band whose level is not
    skipped has each value [x] replaced by [x - t] when [x > 2t], by
    [x + t] when [x < -t] and by [0] otherwise, [t] being the scaled
    threshold [threshold_func] gives for that band as it was; skipped
    bands and the low-pass band are kept.  The center [threshold_func]
    returns plays no part. *)
Theorem threshold_by_band_whole_band_exact :
  forall (tf : ndarray R -> nat -> option Z -> R * R)
         (skip_bands : list nat) (sf : option R)
         (detail : bundle R) (low : ndarray R),
    supported_bundle (detail ++ [low]) ->
    sf <> Some 0 ->
    (forall A l p, 0 <= scale_threshold sf (tf A l p).2) ->
    threshold_by_band tf skip_bands None sf (detail ++ [low])
    = (imap (fun b cb =>
               if bool_decide (band_level b ∈ skip_bands) then cb
               else arr_map (shrunk (band_threshold_of tf sf b cb)) cb)
            detail ++ [low],
       Ok tt).
Proof.
  intros tf sk sf detail low Hsup _ Hpos.
  rewrite (threshold_by_band_whole_band tf sk sf detail low Hsup).
  f_equal. f_equal. apply imap_ext. intros b cb _.
  unfold edited_band. destruct (bool_decide _); [reflexivity|].
  unfold arr_map. f_equal. apply map_ext. intros x.
  apply soft_steps_shrunk, Hpos.
Qed.

End WholeBandExact.

(* ------------------------------------------------------------------ *)
(** ** Entry checks                                                    *)
(* ------------------------------------------------------------------ *)

Section EntryChecks.
Context {F : Type} `{Scalar F}.

(** X12.  [threshold_by_band] looks at the first array before anything
    else: an empty bundle ends in [IndexError], a first array of no
    dimension or of more than three in [NotImplementedError], and in both
    cases the bundle is left as it was, whatever the other arguments. *)
Theorem threshold_by_band_rejects :
  forall tf skip_bands within_axis scaling_factor,
    threshold_by_band tf skip_bands within_axis scaling_factor
      ([] : bundle F)
    = ([], Raise IndexError)
    /\ forall (c0 : ndarray F) (rest : bundle F),
         ~ 1 <= length (shape c0) <= 3 ->
         threshold_by_band tf skip_bands within_axis scaling_factor
           (c0 :: rest)
         = (c0 :: rest, Raise NotImplementedError).
Proof.
  intros tf sk wa sf. split; [reflexivity|].
  intros c0 rest Hd. unfold threshold_by_band.
  run_with (run_get_item (c0 :: rest) 0 c0 eq_refl).
  rewrite run_bind.
  destruct (length (shape c0)) as [|[|[|[|?]]]] eqn:Hl;
    try reflexivity; exfalso; apply Hd; lia.
Qed.

End EntryChecks.

Section Dispatch.
Context {F : Type}.
Variables modwt1 modwt2 modwt3 : ndarray F -> string -> Z -> result (bundle F).
Variables imodwt1 imodwt2 imodwt3 : bundle F -> string -> result (ndarray F).

(** X13.  From a smallest dimension of nine on, leaving [num_bands] out
    is giving [ceil(log2(min(shape))) - 3], which is then positive: the
    two calls of [modwt_transform] have one outcome. *)
Theorem modwt_transform_derives_bands :
  forall (data : ndarray F) (wavelet_type : string) (m : nat),
    np_min (shape data) = Ok m ->
    9 <= m ->
    (0 < Z.log2_up (Z.of_nat m) - 3)%Z
    /\ modwt_transform modwt1 modwt2 modwt3 data wavelet_type None
       = modwt_transform modwt1 modwt2 modwt3 data wavelet_type
           (Some (Z.log2_up (Z.of_nat m) - 3)%Z).
Proof.
  intros data wt m Hmin Hm.
  assert (Hpos : (0 < Z.log2_up (Z.of_nat m) - 3)%Z).
  { destruct (Z_lt_le_dec 0 (Z.log2_up (Z.of_nat m) - 3)) as [|Hle];
      [assumption|].
    apply derived_bands_not_positive in Hle; lia. }
  split; [exact Hpos|].
  unfold modwt_transform. rewrite Hmin. simpl. unfold auto_num_bands.
  rewrite (proj2 (Nat.eqb_neq m 0)) by lia. simpl.
  rewrite (proj2 (Z.ltb_lt 0 _) Hpos). reflexivity.
Qed.

(** X14.  The inverse of what the forward transform returned never fails
    on dimensionality: when [modwt_transform] returns a bundle whose first
    array has as many dimensions as the data, as the engine's bundles
    have, [inverse_modwt_transform] hands that bundle to the inverse
    engine of the dimensionality the forward call used. *)
Theorem inverse_follows_forward :
  forall (data : ndarray F) (wavelet_type : string) (num_bands : option Z)
         (coefs : bundle F) (c0 : ndarray F),
    modwt_transform modwt1 modwt2 modwt3 data wavelet_type num_bands
    = Ok coefs ->
    coefs !! 0 = Some c0 ->
    length (shape c0) = length (shape data) ->
    (1 <= length (shape data) <= 3)
    /\ inverse_modwt_transform imodwt1 imodwt2 imodwt3 coefs wavelet_type
       = match length (shape data) with
         | 1 => imodwt1 coefs wavelet_type
         | 2 => imodwt2 coefs wavelet_type
         | _ => imodwt3 coefs wavelet_type
         end.
Proof.
  intros data wt nb coefs c0 Hfwd Hc0 Hdims.
  assert (Hd : 1 <= length (shape data) <= 3).
  { unfold modwt_transform in Hfwd.
    destruct (match nb with
              | Some num_bands => Ok num_bands
              | None => _
              end) as [k|e]; simpl in Hfwd; [|discriminate].
    destruct (length (shape data)) as [|[|[|[|?]]]]; try discriminate; lia. }
  split; [exact Hd|].
  unfold inverse_modwt_transform. rewrite Hc0. cbv zeta. rewrite Hdims.
  destruct (length (shape data)) as [|[|[|[|?]]]]; try reflexivity; lia.
Qed.

End Dispatch.

(* ------------------------------------------------------------------ *)
(** ** Filling, counting and averaging                                 *)
(* ------------------------------------------------------------------ *)

Section Filling.
Context {F : Type} `{Scalar F}.

Lemma set_coefs_loop (value : F) (cs pre : bundle F) :
  for_each (seq (length pre) (length cs))
    (fun b (_ : unit) => edit_item b (arr_map (fun _ => value)))
    tt (pre ++ cs)
  = (pre ++ map (filled value) cs, Ok tt).
Proof.
  revert pre. induction cs as [|c cs IH]; intros pre.
  - reflexivity.
  - cbn [length seq for_each map].
    run_with run_edit_item_middle.
    specialize (IH (pre ++ [filled value c])).
    rewrite length_app in IH. cbn [length] in IH.
    rewrite Nat.add_1_r, <- !app_assoc in IH. exact IH.
Qed.

Lemma set_coefs_run (value : F) (coefs : bundle F) :
  set_coefs value coefs = (map (filled value) coefs, Ok tt).
Proof.
  unfold set_coefs. rewrite run_bind, run_len. cbv beta iota.
  exact (set_coefs_loop value coefs []).
Qed.

(** X15.  [set_coefs] never raises and fills every array of the bundle,
    the low-pass band included, keeping the shapes; of two fills the
    second alone shows. *)
Theorem set_coefs_fills :
  forall (value other : F) (coefs : bundle F),
    set_coefs value coefs = (map (filled value) coefs, Ok tt)
    /\ shapes (set_coefs value coefs).1 = shapes coefs
    /\ (set_coefs value (set_coefs other coefs).1).1
       = (set_coefs value coefs).1.
Proof.
  intros v w coefs. rewrite !set_coefs_run. simpl. split; [reflexivity|].
  split.
  - unfold shapes. rewrite map_map. reflexivity.
  - rewrite map_map. apply map_ext. intros a. unfold filled, arr_map. simpl.
    rewrite map_map. reflexivity.
Qed.

Lemma fold_left_add_sum (l : list nat) (a : nat) :
  fold_left Nat.add l a = a + sum_list l.
Proof.
  revert a. induction l as [|x l IH]; intros a; simpl; [lia|].
  rewrite IH. lia.
Qed.

Lemma num_nonzero_sum (coefs : bundle F) :
  num_nonzero_coefficients coefs = sum_list (map count_nonzero coefs).
Proof. unfold num_nonzero_coefficients. apply fold_left_add_sum. Qed.

Lemma sum_list_insert_le (f : ndarray F -> nat) (s : bundle F) b a a' :
  s !! b = Some a -> f a' <= f a ->
  sum_list (map f (<[b := a']> s)) <= sum_list (map f s).
Proof.
  revert b. induction s as [|x s IH]; intros [|b] Hb Hle; simpl in *;
    try discriminate.
  - injection Hb as ->. lia.
  - specialize (IH b Hb Hle). lia.
Qed.

Lemma keeps_edit_item_nonzero (s0 : bundle F) b (f : ndarray F -> ndarray F) :
  (forall a, count_nonzero (f a) <= count_nonzero a) ->
  keeps (no_more_nonzero s0) (edit_item b f) (fun _ => True).
Proof.
  intros Hf s [Hlen Hle]. unfold edit_item.
  destruct (s !! b) as [a|] eqn:Hb; simpl; [|done].
  split; [|done]. split; [rewrite length_insert; exact Hlen|].
  etransitivity; [|exact Hle]. rewrite !num_nonzero_sum.
  apply (sum_list_insert_le count_nonzero s b a); [exact Hb|apply Hf].
Qed.


Lemma count_nonzero_map_plane axis p (g : F -> F) (a : ndarray F) :
  (forall x, is_nonzero (g x) = true -> is_nonzero x = true) ->
  count_nonzero (map_plane axis p g a) <= count_nonzero a.
Proof.
  intros Hg. unfold count_nonzero, map_plane. simpl.
  generalize 0 at 1. induction (data a) as [|x l IH]; intros i; simpl; [lia|].
  rewrite !filter_cons. specialize (IH (S i)).
  destruct (coord (shape a) axis i =? p).
  - destruct (decide (is_nonzero (g x) = true)) as [Hx|Hx].
    + rewrite decide_True by (apply Hg, Hx). simpl. lia.
    + destruct (decide (is_nonzero x = true)); simpl; lia.
  - destruct (decide (is_nonzero x = true)); simpl; lia.
Qed.

End Filling.

Section CountingExact.
Local Open Scope R_scope.

Lemma is_nonzero_R (x : R) : is_nonzero x = true <-> x <> 0.
Proof.
  unfold is_nonzero. simpl.
  destruct (bool_decide_reflect (x <= 0));
    destruct (bool_decide_reflect (0 <= x)); simpl; split;
    try discriminate; try lra; intros; try reflexivity; lra.
Qed.

Lemma fixes_zero_no_new_nonzero (g : R -> R) :
  g 0 = 0 -> forall x, is_nonzero (g x) = true -> is_nonzero x = true.
Proof.
  intros Hg x Hx. apply is_nonzero_R. intros ->.
  apply is_nonzero_R in Hx. exact (Hx Hg).
Qed.


(** X17.  The spatial mask creates no non-zero coefficient either, and
    after [set_coefs(coefs, 0)] there is none left. *)
Theorem masking_and_zero_fill_nonzeros :
  forall (coefs : bundle R),
    (forall within_axis range max_band,
        (num_nonzero_coefficients
           (low_pass_spatial_filter within_axis range max_band coefs).1
         <= num_nonzero_coefficients coefs)%nat)
    /\ num_nonzero_coefficients (set_coefs 0 coefs).1 = 0%nat.
Proof.
  intros coefs. split.
  - intros wa [lo hi] mb.
    refine (proj2 (proj1 (low_pass_spatial_filter_keeps_where
                     (no_more_nonzero coefs) (length coefs)
                     (fun _ _ _ => True) wa lo hi mb _ _ _ coefs _))).
    + intros s [Hs _]. exact Hs.
    + intros b axis p _. apply keeps_get_view.
    + intros b axis p _ _ _ _. apply keeps_edit_item_nonzero. intros a.
      apply count_nonzero_map_plane, fixes_zero_no_new_nonzero.
      reflexivity.
    + split; reflexivity.
  - rewrite set_coefs_run, num_nonzero_sum. simpl.
    induction coefs as [|a coefs IH]; simpl; [reflexivity|].
    rewrite IH, Nat.add_0_r. unfold count_nonzero, filled, arr_map. simpl.
    induction (data a) as [|x l IHl]; simpl; [reflexivity|].
    rewrite filter_cons, decide_False; [exact IHl|].
    intros Hx. apply is_nonzero_R in Hx. exact (Hx eq_refl).
Qed.

End CountingExact.

Section MeanExact.
Local Open Scope R_scope.

Lemma arr_sum_Rsum (a : ndarray R) : arr_sum a = Rsum (data a).
Proof.
  unfold arr_sum. rewrite fold_left_Rplus. change fzero with 0. lra.
Qed.

Lemma mean_run (coefs : bundle R) :
  coefs <> [] ->
  mean coefs
  = Ok (Rsum (map (fun a => Rsum (data a)) coefs)
        / INR (announced_size coefs)).
Proof.
  intros Hne.
  assert (Hsum : fold_left Rplus (map arr_sum coefs) 0
                 = Rsum (map (fun a => Rsum (data a)) coefs)).
  { rewrite fold_left_Rplus, Rplus_0_l. f_equal. apply map_ext.
    intros a. apply arr_sum_Rsum. }
  assert (Hn : fold_left Nat.add
                 (map (fun coef => prod_shape (shape coef)) coefs) 0%nat
               = announced_size coefs).
  { rewrite fold_left_add_sum. reflexivity. }
  unfold mean. cbv zeta.
  change (@fadd R R_Scalar) with Rplus. change (@fzero R R_Scalar) with 0.
  rewrite Hsum, Hn. destruct coefs as [|c cs]; [congruence|]. reflexivity.
Qed.


Lemma Rsum_repeat_value (v : R) (l : list R) :
  Rsum (map (fun _ => v) l) = INR (length l) * v.
Proof.
  unfold Rsum. induction l as [|x l IH]; [simpl; lra|].
  cbn [map fold_right length]. rewrite IH, S_INR. lra.
Qed.

(** X18.  After [set_coefs(coefs, value)] the mean is [value], in exact
    arithmetic, for a bundle of well-formed arrays that holds an element
    at all. *)
Theorem mean_of_filled :
  forall (value : R) (coefs : bundle R),
    Forall wf_array coefs ->
    (0 < announced_size coefs)%nat ->
    mean (set_coefs value coefs).1 = Ok value.
Proof.
  intros v coefs Hwf Hpos. rewrite set_coefs_run. simpl.
  assert (Hne : map (filled v) coefs <> []).
  { destruct coefs; [unfold announced_size in Hpos; simpl in Hpos; lia|].
    discriminate. }
  rewrite (mean_run _ Hne). f_equal.
  assert (Hsize : announced_size (map (filled v) coefs)
                  = announced_size coefs).
  { unfold announced_size. rewrite map_map. reflexivity. }
  assert (Hsum : Rsum (map (fun a => Rsum (data a)) (map (filled v) coefs))
                 = INR (announced_size coefs) * v).
  { clear Hpos Hne Hsize. unfold announced_size.
    induction Hwf as [|a coefs Ha _ IH].
    - unfold Rsum. simpl. lra.
    - cbn [map sum_list sum_list_with]. unfold Rsum at 1. cbn [fold_right].
      fold (Rsum (map (fun a => Rsum (data a)) (map (filled v) coefs))).
      rewrite IH. unfold filled at 1, arr_map. simpl data.
      rewrite Rsum_repeat_value, Ha, plus_INR. unfold id.
      rewrite Rmult_plus_distr_r. reflexivity. }
  rewrite Hsize, Hsum. field.
  apply not_0_INR. lia.
Qed.



End MeanExact.

(* ------------------------------------------------------------------ *)
(** ** Counting coefficients; the length assertions                   *)
(* ------------------------------------------------------------------ *)

Section Counts.
Context {F : Type} `{Scalar F}.

(** X20.  [num_coefficients()] is the length of the flattened vector: for
    a handle with a first probe array [c0] and any bundle of as many
    well-formed arrays of the shape of [c0] as the probe bundle has,
    the method returns the number of elements of [coefs_to_vec] of that
    bundle. *)
Theorem num_coefficients_is_vector_length :
  forall (self : UndecimatedWaveletTransform F) (c0 : ndarray F)
         (B : bundle F),
    example_coefs self !! 0 = Some c0 ->
    length B = length (example_coefs self) ->
    Forall (fun a => shape a = shape c0 /\ wf_array a) B ->
    exists v, coefs_to_vec B = Ok v
              /\ num_coefficients self = Ok (length v).
Proof.
  intros self c0 B Hc0 Hlen Hall.
  assert (Hne : map ravel_f B <> []).
  { destruct B; simpl in *; [|discriminate].
    destruct (example_coefs self); simpl in *; discriminate. }
  exists (concat (map ravel_f B)). split.
  - unfold coefs_to_vec, np_hstack.
    destruct (map ravel_f B); [congruence|reflexivity].
  - unfold num_coefficients. rewrite Hc0. f_equal.
    rewrite (length_concat_uniform (prod_shape (shape c0))).
    + rewrite length_map, Hlen. reflexivity.
    + apply Forall_map. eapply Forall_impl; [exact Hall|].
      intros a [Hs Hwf]. simpl. unfold ravel_f. rewrite <- Hs. exact Hwf.
Qed.

(** X22.  The length assertions of the update operators fail before any
    edit: [update] with an update bundle of another length, and
    [multiplicative_update] with a numerator or a denominator of another
    length, end in [AssertionError] with the bundle as it was. *)
Theorem length_assertions_fail_first :
  forall (coefs : bundle F) (alpha : F),
    (forall upd,
        length coefs <> length upd ->
        update upd alpha coefs = (coefs, Raise AssertionError))
    /\ (forall numerator denominator normalization,
           length coefs <> length numerator
           \/ length numerator <> length denominator ->
           multiplicative_update numerator denominator normalization alpha
             coefs
           = (coefs, Raise AssertionError)).
Proof.
  intros coefs alpha. split.
  - intros upd. apply update_length_mismatch.
  - intros nu de no. apply multiplicative_update_length_mismatch.
Qed.

End Counts.

(* ------------------------------------------------------------------ *)
(** ** The spatial mask, in full                                       *)
(* ------------------------------------------------------------------ *)

Section SpatialMask.
Context {F : Type} `{Scalar F}.

Lemma zero_planes_ext s axis (sel sel' : nat -> bool) i (l : list F) :
  (forall c, sel c = sel' c) ->
  zero_planes s axis sel i l = zero_planes s axis sel' i l.
Proof.
  intros Hs. revert i. induction l as [|x l IH]; intros i; simpl;
    [reflexivity|].
  rewrite Hs, IH. reflexivity.
Qed.

Lemma zero_planes_none s axis i (l : list F) :
  zero_planes s axis (fun _ => false) i l = l.
Proof.
  revert i. induction l as [|x l IH]; intros i; simpl; [reflexivity|].
  rewrite IH. reflexivity.
Qed.

Lemma plane_map_zero_planes s axis p (sel : nat -> bool) i (l : list F) :
  plane_map s axis p (fun _ => fzero) i (zero_planes s axis sel i l)
  = zero_planes s axis (fun c => (c =? p) || sel c) i l.
Proof.
  revert i. induction l as [|x l IH]; intros i; simpl; [reflexivity|].
  rewrite IH. destruct (coord s axis i =? p); reflexivity.
Qed.

Lemma masked_none axis (a : ndarray F) : masked axis (fun _ => false) a = a.
Proof.
  unfold masked. rewrite zero_planes_none. destruct a. reflexivity.
Qed.

Lemma masked_ext axis (sel sel' : nat -> bool) (a : ndarray F) :
  (forall c, sel c = sel' c) -> masked axis sel a = masked axis sel' a.
Proof.
  intros Hs. unfold masked. f_equal. apply zero_planes_ext, Hs.
Qed.

Lemma map_plane_masked axis p (sel : nat -> bool) (a : ndarray F) :
  map_plane axis p (fun _ => fzero) (masked axis sel a)
  = masked axis (fun c => (c =? p) || sel c) a.
Proof.
  unfold map_plane, masked. simpl. f_equal. apply plane_map_zero_planes.
Qed.

(** The loop over the planes of one band. *)
Lemma mask_plane_loop axis (cond : nat -> bool) (a : ndarray F)
    (pre post : bundle F) (k p0 : nat) (sel : nat -> bool) :
  3 <= length (shape a) ->
  p0 + k <= nth axis (shape a) 0 ->
  for_each (seq p0 k)
    (fun p (_ : unit) =>
       A ← get_view (length pre) axis p;
       if cond p then edit_view (length pre) axis p (fun _ => fzero)
       else mret tt)
    tt (pre ++ masked axis sel a :: post)
  = (pre ++ masked axis
              (fun c => (p0 <=? c) && (c <? p0 + k) && cond c || sel c) a
         :: post,
     Ok tt).
Proof.
  intros Hdims. revert p0 sel. induction k as [|k IH]; intros p0 sel Hk.
  - simpl. rewrite run_ret. f_equal. f_equal. f_equal.
    apply masked_ext. intros c.
    replace (c <? p0 + 0) with (c <? p0) by (f_equal; lia).
    destruct (Nat.leb_spec p0 c), (Nat.ltb_spec c p0); simpl;
      try reflexivity; lia.
  - cbn [seq for_each].
    assert (Hview : get_view (length pre) axis p0
                      (pre ++ masked axis sel a :: post)
                    = (pre ++ masked axis sel a :: post,
                       Ok (get_plane axis p0 (masked axis sel a)))).
    { unfold get_view. run_with run_get_item_middle.
      unfold plane_ok. change (shape (masked axis sel a)) with (shape a).
      rewrite (proj2 (Nat.leb_le 3 _) Hdims).
      rewrite (proj2 (Nat.ltb_lt p0 _)) by lia. reflexivity. }
    run_with Hview.
    destruct (cond p0) eqn:Hc.
    + unfold edit_view. run_with run_edit_item_middle.
      rewrite map_plane_masked.
      rewrite (IH (S p0)) by lia. f_equal. f_equal. f_equal.
      apply masked_ext. intros c.
      replace (c <? S p0 + k) with (c <? p0 + S k) by (f_equal; lia).
      destruct (Nat.eqb_spec c p0) as [->|Hne].
      * rewrite Hc, Nat.leb_refl.
        rewrite (proj2 (Nat.ltb_lt p0 (p0 + S k))) by lia.
        simpl. apply orb_true_r.
      * destruct (Nat.leb_spec (S p0) c), (Nat.leb_spec p0 c); simpl;
          try reflexivity; lia.
    + rewrite ?run_bind, run_ret. cbv beta iota.
      rewrite (IH (S p0)) by lia. f_equal. f_equal. f_equal.
      apply masked_ext. intros c.
      replace (c <? S p0 + k) with (c <? p0 + S k) by (f_equal; lia).
      destruct (Nat.eqb_spec c p0) as [->|Hne].
      * rewrite Hc, !andb_false_r.
        destruct (Nat.leb_spec (S p0) p0); [lia|]. reflexivity.
      * destruct (Nat.leb_spec (S p0) c), (Nat.leb_spec p0 c); simpl;
          try reflexivity; lia.
Qed.

Lemma tuple_index_axis (s : list nat) (within_axis : Z) :
  (0 <= within_axis <= 2)%Z -> 3 <= length s ->
  tuple_index s within_axis = Ok (nth (Z.to_nat within_axis) s 0)
  /\ slice_axis within_axis = Z.to_nat within_axis.
Proof.
  intros Hwa Hs. unfold tuple_index, slice_axis. split.
  - rewrite (proj2 (Z.leb_le 0 _)) by lia.
    rewrite (proj2 (Z.ltb_lt within_axis _)) by lia. reflexivity.
  - assert (within_axis = 0 \/ within_axis = 1 \/ within_axis = 2)%Z
      as [->| [->| ->]] by lia; reflexivity.
Qed.

Lemma low_pass_loop within_axis (lo hi max_band : Z)
    (cs pre post : bundle F) :
  (0 <= within_axis <= 2)%Z ->
  Forall (fun a => 3 <= length (shape a)) cs ->
  for_each (seq (length pre) (length cs))
    (fun b (_ : unit) =>
       cb ← get_item b;
       num_planes ← lift (tuple_index (shape cb) within_axis);
       for_xrange num_planes (fun p =>
         A ← get_view b (slice_axis within_axis) p;
         if (lo <? Z.of_nat p)%Z && (Z.of_nat p <? hi)%Z
            && (Z.of_nat (band_level b) <? max_band)%Z
         then edit_view b (slice_axis within_axis) p (fun _ => fzero)
         else mret tt))
    tt (pre ++ cs ++ post)
  = (pre ++ imap (fun i => masked_band (Z.to_nat within_axis) lo hi max_band
                             (length pre + i)) cs ++ post,
     Ok tt).
Proof.
  intros Hwa Hall. revert pre.
  induction Hall as [|c cs Hc _ IH]; intros pre.
  - reflexivity.
  - cbn [length seq for_each]. rewrite imap_cons. cbn [app].
    run_with run_get_item_middle.
    destruct (tuple_index_axis (shape c) within_axis Hwa Hc) as [Hti Hax].
    rewrite ?run_bind, run_lift, Hti. cbv beta iota.
    unfold for_xrange. rewrite Hax.
    pose proof (mask_plane_loop (Z.to_nat within_axis)
                  (mask_selects lo hi max_band (length pre)) c pre
                  (cs ++ post)
                  (nth (Z.to_nat within_axis) (shape c) 0) 0
                  (fun _ => false) Hc (Nat.le_refl _)) as Hplanes.
    rewrite masked_none in Hplanes. unfold mask_selects in Hplanes at 1.
    rewrite Hplanes. cbv beta iota.
    specialize (IH (pre ++ [masked_band (Z.to_nat within_axis) lo hi
                              max_band (length pre + 0) c])).
    rewrite length_app in IH. cbn [length] in IH.
    rewrite Nat.add_1_r, <- !app_assoc in IH. cbn [app] in IH.
    replace (masked (Z.to_nat within_axis) _ c)
      with (masked_band (Z.to_nat within_axis) lo hi max_band
              (length pre + 0) c).
    2:{ unfold masked_band. rewrite Nat.add_0_r. apply masked_ext.
        intros p. simpl. rewrite orb_false_r. reflexivity. }
    rewrite Hax in IH. refine (eq_trans IH _).
    rewrite (imap_ext
               (fun i => masked_band (Z.to_nat within_axis) lo hi max_band
                           (S (length pre) + i))
               ((fun i => masked_band (Z.to_nat within_axis) lo hi max_band
                            (length pre + i)) ∘ S));
      [reflexivity|].
    intros i x _. simpl. f_equal. lia.
Qed.

(** [low_pass_spatial_filter] on a bundle of arrays of three dimensions
    or more, along one of the three axes. *)
Lemma low_pass_spatial_filter_run within_axis (lo hi max_band : Z)
    (detail : bundle F) (low : ndarray F) :
  (0 <= within_axis <= 2)%Z ->
  Forall (fun a => 3 <= length (shape a)) detail ->
  low_pass_spatial_filter within_axis (lo, hi) max_band (detail ++ [low])
  = (imap (masked_band (Z.to_nat within_axis) lo hi max_band) detail
       ++ [low],
     Ok tt).
Proof.
  intros Hwa Hall. unfold low_pass_spatial_filter.
  run_with run_len. rewrite length_app. cbn [length].
  rewrite Nat.add_1_r, Nat.sub_1_r. cbn [Nat.pred]. unfold for_xrange.
  exact (low_pass_loop within_axis lo hi max_band detail [] [low] Hwa Hall).
Qed.

End SpatialMask.

Section SpatialMaskProperties.
Context {F : Type} `{Scalar F}.

Lemma zero_planes_lookup s axis (sel : nat -> bool) i0 (l : list F) i :
  zero_planes s axis sel i0 l !! i
  = (fun x => if sel (coord s axis (i0 + i)) then fzero else x) <$> l !! i.
Proof.
  revert i0 i. induction l as [|x l IH]; intros i0 [|i]; simpl;
    try reflexivity.
  - rewrite Nat.add_0_r. reflexivity.
  - rewrite IH. replace (S i0 + i) with (i0 + S i) by lia. reflexivity.
Qed.

Lemma zero_planes_idem s axis (sel : nat -> bool) i0 (l : list F) :
  zero_planes s axis sel i0 (zero_planes s axis sel i0 l)
  = zero_planes s axis sel i0 l.
Proof.
  revert i0. induction l as [|x l IH]; intros i0; simpl; [reflexivity|].
  rewrite IH. destruct (sel (coord s axis i0)); reflexivity.
Qed.

Lemma masked_band_idem axis lo hi max_band b (a : ndarray F) :
  masked_band axis lo hi max_band b (masked_band axis lo hi max_band b a)
  = masked_band axis lo hi max_band b a.
Proof.
  unfold masked_band, masked. simpl. f_equal. apply zero_planes_idem.
Qed.

(** X23.  The spatial mask on arrays of three dimensions or more, along
    axis 0, 1 or 2: the call returns, shapes are kept, and in every
    detail band an element is set to zero exactly when the level of the
    band is below [max_band] and the element lies in a plane of index
    strictly between the two bounds; every other element is kept. *)
Theorem low_pass_spatial_filter_masks :
  forall (within_axis lo hi max_band : Z) (detail : bundle F)
         (low : ndarray F),
    (0 <= within_axis <= 2)%Z ->
    Forall (fun a => 3 <= length (shape a)) detail ->
    (low_pass_spatial_filter within_axis (lo, hi) max_band
       (detail ++ [low])).2 = Ok tt
    /\ forall b a i x,
         detail !! b = Some a -> data a !! i = Some x ->
         exists a',
           (low_pass_spatial_filter within_axis (lo, hi) max_band
              (detail ++ [low])).1 !! b = Some a'
           /\ shape a' = shape a
           /\ data a' !! i
              = Some (if (coord (shape a) (Z.to_nat within_axis) i
                          <? nth (Z.to_nat within_axis) (shape a) 0)
                         && mask_selects lo hi max_band b
                              (coord (shape a) (Z.to_nat within_axis) i)
                      then fzero else x).
Proof.
  intros wa lo hi mb detail low Hwa Hall.
  rewrite (low_pass_spatial_filter_run wa lo hi mb detail low Hwa Hall).
  split; [reflexivity|].
  intros b a i x Hb Hi. simpl.
  exists (masked_band (Z.to_nat wa) lo hi mb b a). split; [|split].
  - rewrite lookup_app_l.
    + rewrite list_lookup_imap, Hb. reflexivity.
    + rewrite length_imap. apply lookup_lt_Some in Hb. exact Hb.
  - reflexivity.
  - unfold masked_band, masked. simpl.
    rewrite zero_planes_lookup, Hi. reflexivity.
Qed.

(** X24.  Masking twice is masking once: on arrays of three dimensions or
    more, a second call of [low_pass_spatial_filter] with the same
    arguments changes nothing. *)
Theorem low_pass_spatial_filter_idempotent :
  forall (within_axis lo hi max_band : Z) (detail : bundle F)
         (low : ndarray F),
    (0 <= within_axis <= 2)%Z ->
    Forall (fun a => 3 <= length (shape a)) detail ->
    (low_pass_spatial_filter within_axis (lo, hi) max_band
       (low_pass_spatial_filter within_axis (lo, hi) max_band
          (detail ++ [low])).1).1
    = (low_pass_spatial_filter within_axis (lo, hi) max_band
         (detail ++ [low])).1.
Proof.
  intros wa lo hi mb detail low Hwa Hall.
  rewrite (low_pass_spatial_filter_run wa lo hi mb detail low Hwa Hall).
  simpl.
  assert (Hall' : Forall (fun a => 3 <= length (shape a))
                         (imap (masked_band (Z.to_nat wa) lo hi mb) detail)).
  { apply Forall_lookup. intros b a' Hb.
    rewrite list_lookup_imap in Hb.
    destruct (detail !! b) as [a|] eqn:Ha; [|discriminate].
    injection Hb as <-. simpl.
    apply (proj1 (Forall_lookup _ _) Hall b a Ha). }
  rewrite (low_pass_spatial_filter_run wa lo hi mb _ low Hwa Hall').
  simpl. f_equal. apply list_eq. intros b.
  rewrite !list_lookup_imap. destruct (detail !! b) as [a|]; simpl;
    [|reflexivity].
  rewrite masked_band_idem. reflexivity.
Qed.

End SpatialMaskProperties.

(* ------------------------------------------------------------------ *)
(** ** Thresholding plane by plane, in full                            *)
(* ------------------------------------------------------------------ *)

Section PerPlane.
Context {F : Type} `{Scalar F}.

Lemma planes_map_ext s axis (pf pf' : nat -> F -> F) i (l : list F) :
  (forall c x, pf c x = pf' c x) ->
  planes_map s axis pf i l = planes_map s axis pf' i l.
Proof.
  intros Hp. revert i. induction l as [|x l IH]; intros i; simpl;
    [reflexivity|].
  rewrite Hp, IH. reflexivity.
Qed.

Lemma planes_map_id s axis i (l : list F) :
  planes_map s axis (fun _ x => x) i l = l.
Proof.
  revert i. induction l as [|x l IH]; intros i; simpl; [reflexivity|].
  rewrite IH. reflexivity.
Qed.

Lemma plane_map_planes_map s axis p (g : F -> F) (pf : nat -> F -> F) i
    (l : list F) :
  plane_map s axis p g i (planes_map s axis pf i l)
  = planes_map s axis (fun c x => if c =? p then g (pf c x) else pf c x) i l.
Proof.
  revert i. induction l as [|x l IH]; intros i; simpl; [reflexivity|].
  rewrite IH. reflexivity.
Qed.

Lemma plane_elems_planes_map s axis p (pf : nat -> F -> F) i (l : list F) :
  (forall x, pf p x = x) ->
  plane_elems s axis p i (planes_map s axis pf i l)
  = plane_elems s axis p i l.
Proof.
  intros Hp. revert i. induction l as [|x l IH]; intros i; simpl;
    [reflexivity|].
  rewrite IH. destruct (Nat.eqb_spec (coord s axis i) p) as [->|];
    [rewrite Hp|]; reflexivity.
Qed.

Lemma by_planes_id axis (a : ndarray F) : by_planes axis (fun _ x => x) a = a.
Proof.
  unfold by_planes. rewrite planes_map_id. destruct a. reflexivity.
Qed.

Lemma by_planes_ext axis (pf pf' : nat -> F -> F) (a : ndarray F) :
  (forall c x, pf c x = pf' c x) -> by_planes axis pf a = by_planes axis pf' a.
Proof.
  intros Hp. unfold by_planes. f_equal. apply planes_map_ext, Hp.
Qed.

Lemma map_plane_by_planes axis p (g : F -> F) (pf : nat -> F -> F)
    (a : ndarray F) :
  map_plane axis p g (by_planes axis pf a)
  = by_planes axis (fun c x => if c =? p then g (pf c x) else pf c x) a.
Proof.
  unfold map_plane, by_planes. simpl. f_equal. apply plane_map_planes_map.
Qed.

Lemma get_plane_by_planes axis p (pf : nat -> F -> F) (a : ndarray F) :
  (forall x, pf p x = x) ->
  get_plane axis p (by_planes axis pf a) = get_plane axis p a.
Proof.
  intros Hp. unfold get_plane, by_planes. simpl. f_equal.
  apply plane_elems_planes_map, Hp.
Qed.

(** The loop over the planes of one band. *)
Lemma threshold_plane_loop tf sf axis lvl (a : ndarray F)
    (pre post : bundle F) (k p0 : nat) (pf : nat -> F -> F) :
  3 <= length (shape a) ->
  p0 + k <= nth axis (shape a) 0 ->
  (forall c x, p0 <= c -> pf c x = x) ->
  for_each (seq p0 k)
    (fun p (_ : unit) =>
       A ← get_view (length pre) axis p;
       let '(band_center, band_threshold) :=
         tf A lvl (Some (adjusted_plane (nth axis (shape a) 0) p lvl)) in
       edit_view (length pre) axis p
         (gate_step band_center (scale_threshold sf band_threshold));;
       edit_view (length pre) axis p
         (shrink_above (scale_threshold sf band_threshold));;
       edit_view (length pre) axis p
         (zero_within (scale_threshold sf band_threshold));;
       edit_view (length pre) axis p
         (shrink_below (scale_threshold sf band_threshold)))
    tt (pre ++ by_planes axis pf a :: post)
  = (pre ++ by_planes axis
              (fun c =>
                 if (p0 <=? c) && (c <? p0 + k)
                 then gated_steps
                        (tf (get_plane axis c a) lvl
                            (Some (adjusted_plane (nth axis (shape a) 0)
                                     c lvl))).1
                        (scale_threshold sf
                           (tf (get_plane axis c a) lvl
                               (Some (adjusted_plane (nth axis (shape a) 0)
                                        c lvl))).2)
                 else pf c) a
         :: post,
     Ok tt).
Proof.
  intros Hdims. revert p0 pf. induction k as [|k IH]; intros p0 pf Hk Hid.
  - simpl. rewrite run_ret. f_equal. f_equal. f_equal.
    apply by_planes_ext. intros c x.
    replace (c <? p0 + 0) with (c <? p0) by (f_equal; lia).
    destruct (Nat.leb_spec p0 c), (Nat.ltb_spec c p0); simpl;
      try reflexivity; lia.
  - cbn [seq for_each].
    assert (Hview : get_view (length pre) axis p0
                      (pre ++ by_planes axis pf a :: post)
                    = (pre ++ by_planes axis pf a :: post,
                       Ok (get_plane axis p0 a))).
    { unfold get_view. run_with run_get_item_middle.
      unfold plane_ok. change (shape (by_planes axis pf a)) with (shape a).
      rewrite (proj2 (Nat.leb_le 3 _) Hdims).
      rewrite (proj2 (Nat.ltb_lt p0 _)) by lia.
      rewrite <- (get_plane_by_planes axis p0 pf a)
        by (intros x; apply Hid; lia).
      reflexivity. }
    run_with Hview.
    destruct (tf (get_plane axis p0 a) lvl
                 (Some (adjusted_plane (nth axis (shape a) 0) p0 lvl)))
      as [bc bt] eqn:Htf.
    unfold edit_view.
    run_with run_edit_item_middle. rewrite map_plane_by_planes.
    run_with run_edit_item_middle. rewrite map_plane_by_planes.
    run_with run_edit_item_middle. rewrite map_plane_by_planes.
    run_with run_edit_item_middle. rewrite map_plane_by_planes.
    rewrite (IH (S p0)).
    + f_equal. f_equal. f_equal. apply by_planes_ext. intros c x.
      replace (c <? S p0 + k) with (c <? p0 + S k) by (f_equal; lia).
      destruct (Nat.eqb_spec c p0) as [->|Hne].
      * rewrite Htf.
        rewrite (proj2 (Nat.leb_gt (S p0) p0)) by lia.
        rewrite Nat.leb_refl.
        rewrite (proj2 (Nat.ltb_lt p0 (p0 + S k))) by lia.
        cbn [andb fst snd]. unfold gated_steps.
        rewrite (Hid p0 x) by lia. reflexivity.
      * destruct (Nat.leb_spec (S p0) c), (Nat.leb_spec p0 c);
          cbn [andb]; try reflexivity; lia.
    + lia.
    + intros c x Hc. destruct (Nat.eqb_spec c p0); [lia|].
      apply Hid. lia.
Qed.

End PerPlane.

Section PerPlaneRun.
Context {F : Type} `{Scalar F}.

(** The loop over the bands, in per-plane mode. *)
Lemma per_plane_loop tf skip_bands sf within_axis (cs pre post : bundle F) :
  (0 <= within_axis <= 2)%Z ->
  Forall (fun a => 3 <= length (shape a)) cs ->
  for_each (seq (length pre) (length cs))
    (fun b (_ : unit) =>
       if bool_decide (band_level b ∈ skip_bands) then mret tt
       else
         cb ← get_item b;
         num_planes ← lift (tuple_index (shape cb) within_axis);
         for_xrange num_planes (fun p =>
           A ← get_view b (slice_axis within_axis) p;
           let '(band_center, band_threshold) :=
             tf A (band_level b)
                (Some (adjusted_plane num_planes p (band_level b))) in
           edit_view b (slice_axis within_axis) p
             (gate_step band_center (scale_threshold sf band_threshold));;
           edit_view b (slice_axis within_axis) p
             (shrink_above (scale_threshold sf band_threshold));;
           edit_view b (slice_axis within_axis) p
             (zero_within (scale_threshold sf band_threshold));;
           edit_view b (slice_axis within_axis) p
             (shrink_below (scale_threshold sf band_threshold))))
    tt (pre ++ cs ++ post)
  = (pre ++ imap (fun i => edited_planes tf skip_bands sf
                             (Z.to_nat within_axis) (length pre + i)) cs
         ++ post,
     Ok tt).
Proof.
  intros Hwa Hall. revert pre.
  induction Hall as [|c cs Hc _ IH]; intros pre.
  - reflexivity.
  - cbn [length seq for_each]. rewrite imap_cons. cbn [app].
    rewrite run_bind.
    assert (Hstep :
      (if bool_decide (band_level (length pre) ∈ skip_bands) then mret tt
       else
         cb ← get_item (length pre);
         num_planes ← lift (tuple_index (shape cb) within_axis);
         for_xrange num_planes (fun p =>
           A ← get_view (length pre) (slice_axis within_axis) p;
           let '(band_center, band_threshold) :=
             tf A (band_level (length pre))
                (Some (adjusted_plane num_planes p
                         (band_level (length pre)))) in
           edit_view (length pre) (slice_axis within_axis) p
             (gate_step band_center (scale_threshold sf band_threshold));;
           edit_view (length pre) (slice_axis within_axis) p
             (shrink_above (scale_threshold sf band_threshold));;
           edit_view (length pre) (slice_axis within_axis) p
             (zero_within (scale_threshold sf band_threshold));;
           edit_view (length pre) (slice_axis within_axis) p
             (shrink_below (scale_threshold sf band_threshold))))
        (pre ++ c :: cs ++ post)
      = (pre ++ edited_planes tf skip_bands sf (Z.to_nat within_axis)
                  (length pre + 0) c :: cs ++ post,
         Ok tt)).
    { unfold edited_planes. rewrite Nat.add_0_r.
      destruct (bool_decide _); [reflexivity|].
      run_with run_get_item_middle.
      destruct (tuple_index_axis (shape c) within_axis Hwa Hc) as [Hti Hax].
      rewrite ?run_bind, run_lift, Hti. cbv beta iota.
      unfold for_xrange. rewrite Hax.
      pose proof (threshold_plane_loop tf sf (Z.to_nat within_axis)
                    (band_level (length pre)) c pre (cs ++ post)
                    (nth (Z.to_nat within_axis) (shape c) 0) 0
                    (fun _ x => x) Hc (Nat.le_refl _)
                    (fun _ _ _ => eq_refl)) as Hplanes.
      rewrite by_planes_id in Hplanes.
      exact Hplanes. }
    rewrite Hstep. cbv beta iota.
    specialize (IH (pre ++ [edited_planes tf skip_bands sf
                              (Z.to_nat within_axis) (length pre + 0) c])).
    rewrite length_app in IH. cbn [length] in IH.
    rewrite Nat.add_1_r, <- !app_assoc in IH. cbn [app] in IH.
    refine (eq_trans IH _).
    rewrite (imap_ext
               (fun i => edited_planes tf skip_bands sf
                           (Z.to_nat within_axis) (S (length pre) + i))
               ((fun i => edited_planes tf skip_bands sf
                            (Z.to_nat within_axis) (length pre + i)) ∘ S));
      [reflexivity|].
    intros i x _. simpl. f_equal. lia.
Qed.

(** [threshold_by_band] in per-plane mode on a bundle of details of three
    dimensions or more and a low-pass band, along one of the three
    axes. *)
Lemma threshold_by_band_per_plane_run tf skip_bands sf within_axis
    (detail : bundle F) (low : ndarray F) :
  supported_bundle (detail ++ [low]) ->
  (0 <= within_axis <= 2)%Z ->
  Forall (fun a => 3 <= length (shape a)) detail ->
  threshold_by_band tf skip_bands (Some within_axis) sf (detail ++ [low])
  = (imap (edited_planes tf skip_bands sf (Z.to_nat within_axis)) detail
       ++ [low],
     Ok tt).
Proof.
  intros (c0 & Hc0 & Hdims) Hwa Hall. unfold threshold_by_band.
  run_with (run_get_item _ 0 c0 Hc0).
  assert (Hnd :
    (match length (shape c0) with
     | 1 => mret 1 | 2 => mret 3 | 3 => mret 7
     | _ => raise NotImplementedError
     end : M F nat) (detail ++ [low])
    = (detail ++ [low], Ok (match length (shape c0) with
                            | 1 => 1 | 2 => 3 | _ => 7 end))).
  { destruct (length (shape c0)) as [|[|[|[|?]]]]; try lia; reflexivity. }
  run_with Hnd.
  run_with run_len.
  rewrite length_app. cbn [length]. rewrite Nat.add_1_r, Nat.sub_1_r.
  cbn [Nat.pred]. unfold for_xrange.
  exact (per_plane_loop tf skip_bands sf within_axis detail [] [low]
           Hwa Hall).
Qed.

Lemma planes_map_lookup s axis (pf : nat -> F -> F) i0 (l : list F) i :
  planes_map s axis pf i0 l !! i
  = (fun x => pf (coord s axis (i0 + i)) x) <$> l !! i.
Proof.
  revert i0 i. induction l as [|x l IH]; intros i0 [|i]; simpl;
    try reflexivity.
  - rewrite Nat.add_0_r. reflexivity.
  - rewrite IH. replace (S i0 + i) with (i0 + S i) by lia. reflexivity.
Qed.

End PerPlaneRun.

Section PerPlaneProperties.
Context {F : Type} `{Scalar F}.

(** X25.  Per-plane mode along one of the three axes, on a bundle whose
    detail bands have three dimensions or more and whose first array is
    supported: the call returns, and in a detail band whose level is not
    skipped the value at a position of plane [c] has gone through the
    gate and the three steps, at the center and the scaled threshold that
    [threshold_func] gives for plane [c] as it was before the call; the
    shape of the band is kept. *)
Theorem threshold_by_band_per_plane :
  forall (tf : ndarray F -> nat -> option Z -> F * F)
         (skip_bands : list nat) (sf : option F) (within_axis : Z)
         (detail : bundle F) (low : ndarray F)
         (b : nat) (a : ndarray F) (i : nat) (x : F),
    supported_bundle (detail ++ [low]) ->
    (0 <= within_axis <= 2)%Z ->
    Forall (fun a => 3 <= length (shape a)) detail ->
    detail !! b = Some a ->
    data a !! i = Some x ->
    band_level b ∉ skip_bands ->
    coord (shape a) (Z.to_nat within_axis) i
      < nth (Z.to_nat within_axis) (shape a) 0 ->
    (threshold_by_band tf skip_bands (Some within_axis) sf
       (detail ++ [low])).2 = Ok tt
    /\ exists a',
         (threshold_by_band tf skip_bands (Some within_axis) sf
            (detail ++ [low])).1 !! b = Some a'
         /\ shape a' = shape a
         /\ data a' !! i
            = Some (plane_steps tf sf (Z.to_nat within_axis) b a
                      (coord (shape a) (Z.to_nat within_axis) i) x).
Proof.
  intros tf sk sf wa detail low b a i x Hsup Hwa Hall Hb Hi Hskip Hc.
  rewrite (threshold_by_band_per_plane_run tf sk sf wa detail low
             Hsup Hwa Hall).
  split; [reflexivity|].
  exists (edited_planes tf sk sf (Z.to_nat wa) b a). cbn [fst].
  split.
  { rewrite lookup_app_l
      by (rewrite length_imap; apply lookup_lt_Some in Hb; exact Hb).
    rewrite list_lookup_imap, Hb. reflexivity. }
  unfold edited_planes. rewrite bool_decide_eq_false_2 by exact Hskip.
  split; [reflexivity|].
  unfold by_planes. cbn [data shape].
  rewrite planes_map_lookup, Hi. cbn [fmap option_fmap option_map].
  rewrite Nat.add_0_l.
  rewrite (proj2 (Nat.ltb_lt _ _) Hc). reflexivity.
Qed.

(** X26.  Per-plane mode edits only the bands it visits: a skipped
    detail band and the low-pass band come out as they went in. *)
Theorem threshold_by_band_per_plane_frame :
  forall (tf : ndarray F -> nat -> option Z -> F * F)
         (skip_bands : list nat) (sf : option F) (within_axis : Z)
         (detail : bundle F) (low : ndarray F),
    supported_bundle (detail ++ [low]) ->
    (0 <= within_axis <= 2)%Z ->
    Forall (fun a => 3 <= length (shape a)) detail ->
    (threshold_by_band tf skip_bands (Some within_axis) sf
       (detail ++ [low])).1 !! length detail = Some low
    /\ forall b a,
         detail !! b = Some a -> band_level b ∈ skip_bands ->
         (threshold_by_band tf skip_bands (Some within_axis) sf
            (detail ++ [low])).1 !! b = Some a.
Proof.
  intros tf sk sf wa detail low Hsup Hwa Hall.
  rewrite (threshold_by_band_per_plane_run tf sk sf wa detail low
             Hsup Hwa Hall).
  cbn [fst]. split.
  - rewrite lookup_app_r by (rewrite length_imap; lia).
    rewrite length_imap, Nat.sub_diag. reflexivity.
  - intros b a Hb Hskip.
    rewrite lookup_app_l
      by (rewrite length_imap; apply lookup_lt_Some in Hb; exact Hb).
    rewrite list_lookup_imap, Hb. cbn [fmap option_fmap option_map].
    unfold edited_planes. rewrite bool_decide_eq_true_2 by exact Hskip.
    reflexivity.
Qed.

End PerPlaneProperties.

Section PerPlaneExact.
Local Open Scope R_scope.

Lemma gated_steps_exact (c t x : R) :
  0 <= t ->
  gated_steps c t x = if decide (Rabs (x - c) < t) then 0 else shrunk t x.
Proof.
  intros Ht.
  change (gated_steps c t x) with (soft_steps t (gate_step c t x)).
  rewrite soft_steps_shrunk by exact Ht.
  unfold gate_step. cbn [fltb fabs fsub fzero R_Scalar].
  destruct (decide (Rabs (x - c) < t)) as [Hin|Hout].
  - rewrite bool_decide_eq_true_2 by exact Hin.
    unfold shrunk.
    destruct (decide (2 * t < 0)); [lra|].
    destruct (decide (0 < - t)); [lra|]. reflexivity.
  - rewrite bool_decide_eq_false_2 by exact Hout. reflexivity.
Qed.

(** X27.  Per-plane mode in exact arithmetic, with thresholds that are
    never negative and a scaling factor that is not zero: in a detail band
    that is not skipped, a value within
    the scaled threshold [t] of the center of its plane becomes zero
    whatever its size; any other value [x] becomes [x - t] when
    [x > 2t], [x + t] when [x < -t], and zero otherwise.  Center and
    threshold are those [threshold_func] gives for the plane as it was
    before the call, at the band level and the adjusted plane index. *)
Theorem threshold_by_band_per_plane_exact :
  forall (tf : ndarray R -> nat -> option Z -> R * R)
         (skip_bands : list nat) (sf : option R) (within_axis : Z)
         (detail : bundle R) (low : ndarray R)
         (b : nat) (a : ndarray R) (i : nat) (x : R),
    supported_bundle (detail ++ [low]) ->
    (0 <= within_axis <= 2)%Z ->
    Forall (fun a => (3 <= length (shape a))%nat) detail ->
    sf <> Some 0 ->
    (forall A l p, 0 <= scale_threshold sf (tf A l p).2) ->
    detail !! b = Some a ->
    data a !! i = Some x ->
    band_level b ∉ skip_bands ->
    (coord (shape a) (Z.to_nat within_axis) i
      < nth (Z.to_nat within_axis) (shape a) 0%nat)%nat ->
    let axis := Z.to_nat within_axis in
    let p := coord (shape a) axis i in
    let ct := tf (get_plane axis p a) (band_level b)
                 (Some (adjusted_plane (nth axis (shape a) 0%nat) p
                          (band_level b))) in
    let t := scale_threshold sf ct.2 in
    exists a',
      (threshold_by_band tf skip_bands (Some within_axis) sf
         (detail ++ [low])).1 !! b = Some a'
      /\ data a' !! i
         = Some (if decide (Rabs (x - ct.1) < t) then 0 else shrunk t x).
Proof.
  intros tf sk sf wa detail low b a i x Hsup Hwa Hall _ Hpos Hb Hi Hskip Hc
         axis p ct t.
  rewrite (threshold_by_band_per_plane_run tf sk sf wa detail low
             Hsup Hwa Hall).
  exists (edited_planes tf sk sf (Z.to_nat wa) b a). cbn [fst].
  split.
  { rewrite lookup_app_l
      by (rewrite length_imap; apply lookup_lt_Some in Hb; exact Hb).
    rewrite list_lookup_imap, Hb. reflexivity. }
  unfold edited_planes. rewrite bool_decide_eq_false_2 by exact Hskip.
  unfold by_planes. cbn [data shape].
  rewrite planes_map_lookup, Hi. cbn [fmap option_fmap option_map].
  rewrite Nat.add_0_l.
  rewrite (proj2 (Nat.ltb_lt _ _) Hc). f_equal.
  unfold plane_steps. cbv zeta. apply gated_steps_exact, Hpos.
Qed.

End PerPlaneExact.

(* ------------------------------------------------------------------ *)
(** ** The constructor, and the plane index                            *)
(* ------------------------------------------------------------------ *)

Section Constructor.
Context {F : Type} `{Scalar F}.
Variables modwt1 modwt2 modwt3 : ndarray F -> string -> Z -> result (bundle F).

Lemma np_min_le_all (s : list nat) (m : nat) :
  np_min s = Ok m -> Forall (fun n => m <= n) s.
Proof.
  destruct s as [|n s]; [discriminate|]. simpl. intros [= <-].
  assert (Hfold : forall k, fold_right Nat.min k s <= k
                            /\ Forall (fun n => fold_right Nat.min k s <= n) s).
  { intros k. induction s as [|a s IH]; simpl.
    - split; [lia|constructor].
    - destruct IH as [Hk Hall]. split; [lia|].
      constructor; [lia|].
      eapply Forall_impl; [exact Hall|]. simpl. intros; lia. }
  destruct (Hfold n) as [Hn Hall]. constructor; assumption.
Qed.

(** X29.  What a handle built by the constructor guarantees: it keeps the
    three arguments; the image shape has one, two or three dimensions;
    its probe bundle is what the forward transform of the handle returns
    on the all-zero image; and when [num_bands] was left out every
    dimension of the image is nine or more.  With [num_bands] left out
    and a smallest dimension from one to eight, no handle is built: the
    constructor ends in [AssertionError]. *)
Theorem init_outcome :
  forall (shape_arg : list nat) (wt : string) (nb : option Z),
    (forall self,
        init modwt1 modwt2 modwt3 shape_arg wt nb = Ok self ->
        wavelet_type self = wt /\ num_bands self = nb
        /\ img_shape self = shape_arg
        /\ 1 <= length shape_arg <= 3
        /\ fwd modwt1 modwt2 modwt3 (wavelet_type self) (num_bands self)
             (np_zeros (img_shape self))
           = Ok (example_coefs self)
        /\ (nb = None -> Forall (fun n => 9 <= n) shape_arg))
    /\ (forall m,
           nb = None -> np_min shape_arg = Ok m -> 0 < m <= 8 ->
           init modwt1 modwt2 modwt3 shape_arg wt nb
           = Raise AssertionError).
Proof.
  intros s wt nb. split.
  - intros self Hinit. unfold init in Hinit.
    destruct (fwd modwt1 modwt2 modwt3 wt nb (np_zeros s)) as [ec|e]
      eqn:Hfwd; [|discriminate].
    simpl in Hinit. injection Hinit as <-. cbn [wavelet_type num_bands
      img_shape example_coefs].
    repeat split; try exact Hfwd.
    + unfold fwd, modwt_transform in Hfwd. cbn [shape np_zeros] in Hfwd.
      destruct (match nb with
                | Some n => Ok n
                | None => _
                end) as [n|e]; [|discriminate].
      simpl in Hfwd.
      destruct (length s) as [|[|[|[|?]]]]; try discriminate; lia.
    + unfold fwd, modwt_transform in Hfwd. cbn [shape np_zeros] in Hfwd.
      destruct (match nb with
                | Some n => Ok n
                | None => _
                end) as [n|e]; [|discriminate].
      simpl in Hfwd.
      destruct (length s) as [|[|[|[|?]]]]; try discriminate; lia.
    + intros ->. unfold fwd, modwt_transform in Hfwd.
      cbn [shape np_zeros] in Hfwd.
      destruct (np_min s) as [m|e] eqn:Hmin; [|discriminate].
      simpl in Hfwd. unfold auto_num_bands in Hfwd.
      destruct (Nat.eqb_spec m 0) as [->|Hm0]; [discriminate|].
      simpl in Hfwd.
      destruct (Z.ltb_spec 0 (Z.log2_up (Z.of_nat m) - 3)) as [Hpos|Hneg];
        [|discriminate].
      assert (Hm : 9 <= m).
      { destruct (Nat.le_gt_cases m 8) as [Hle|Hgt]; [|lia].
        apply (derived_bands_not_positive m) in Hle; lia. }
      eapply Forall_impl; [exact (np_min_le_all s m Hmin)|].
      simpl. intros; lia.
  - intros m -> Hmin Hm. unfold init, fwd, modwt_transform.
    cbn [shape np_zeros]. rewrite Hmin. simpl. unfold auto_num_bands.
    rewrite (proj2 (Nat.eqb_neq m 0)) by lia. simpl.
    rewrite (proj2 (Z.ltb_ge 0 _)); [reflexivity|].
    apply derived_bands_not_positive; lia.
Qed.

End Constructor.

Section PlaneIndexCircular.
Local Open Scope Z_scope.

(** X28.  The plane index handed to [threshold_func] is the circular one
    whenever the shift [2^(band_level + 1)] does not exceed the number of
    planes: it is [(p - 2^(band_level + 1)) mod num_planes], a valid plane
    index. *)
Theorem adjusted_plane_circular :
  forall (num_planes p band_level : nat),
    (p < num_planes)%nat ->
    2 ^ (Z.of_nat band_level + 1) <= Z.of_nat num_planes ->
    Z.of_nat num_planes < 2 ^ 63 ->
    adjusted_plane num_planes p band_level
    = (Z.of_nat p - 2 ^ (Z.of_nat band_level + 1)) mod Z.of_nat num_planes
    /\ 0 <= adjusted_plane num_planes p band_level < Z.of_nat num_planes.
Proof.
  intros num_planes p band_level Hp Hoff Hn.
  assert (Hpow : 0 < 2 ^ (Z.of_nat band_level + 1)).
  { apply Z.pow_pos_nonneg; lia. }
  set (o := 2 ^ (Z.of_nat band_level + 1)) in *.
  assert (Ha : adjusted_plane num_planes p band_level
               = if Z.of_nat p - o <? 0
                 then Z.of_nat p - o + Z.of_nat num_planes
                 else Z.of_nat p - o).
  { unfold adjusted_plane, roll_offset. fold o.
    rewrite (wrap_int64_small o) by lia.
    rewrite (wrap_int64_small (Z.of_nat p - o)) by lia.
    rewrite (proj2 (Z.leb_gt _ _)) by lia.
    destruct (Z.ltb_spec (Z.of_nat p - o) 0); [|reflexivity].
    apply wrap_int64_small. lia. }
  rewrite Ha. destruct (Z.ltb_spec (Z.of_nat p - o) 0).
  - split; [|lia].
    apply (Z.mod_unique _ _ (-1)); lia.
  - split; [|lia]. symmetry. apply Z.mod_small. lia.
Qed.

End PlaneIndexCircular.

(* ------------------------------------------------------------------ *)
(** ** Instances of the further properties                             *)
(* ------------------------------------------------------------------ *)

Section MoreInstances.

(** Level 0 skipped, on the two-dimensional bundle. *)
Lemma threshold_by_band_skips_witness :
  (threshold_by_band (fixed 0 1)%float [0] None None bundle_2d).1 !! 0
  = bundle_2d !! 0.
Proof.
  apply (threshold_by_band_skips bundle_2d (fixed 0 1)%float [0] None None 0).
  apply list_elem_of_here.
Defined.

(** A mask up to level 1, seen from band 7, the first of level 1. *)
Lemma low_pass_spatial_filter_above_max_band_witness :
  (low_pass_spatial_filter 2 (-1, 3)%Z 1 bundle_3d).1 !! 7 = bundle_3d !! 7.
Proof.
  apply (low_pass_spatial_filter_above_max_band bundle_3d 2 (-1, 3)%Z 1 7).
  vm_compute. discriminate.
Defined.

(** The two-dimensional bundle has no third dimension. *)
Lemma plane_edits_need_three_dimensions_witness :
  (forall tf skip_bands within_axis scaling_factor,
      (threshold_by_band tf skip_bands (Some within_axis) scaling_factor
         bundle_2d).1 = bundle_2d) /\
  (forall within_axis range max_band,
      (low_pass_spatial_filter within_axis range max_band bundle_2d).1
      = bundle_2d).
Proof.
  apply (plane_edits_need_three_dimensions bundle_2d).
  repeat constructor.
Defined.

(** Four values, for a handle on the shape [(2,)] with two probe
    arrays. *)
Lemma coefs_to_vec_vec_to_coefs_witness :
  coefs_to_vec [vec [1; 2]; vec [3; 4]]%float = Ok [1; 2; 3; 4]%float
  /\ length [vec [1; 2]; vec [3; 4]]%float = 2
  /\ Forall (fun a => shape a = [2] /\ wf_array a)
       [vec [1; 2]; vec [3; 4]]%float.
Proof.
  apply (coefs_to_vec_vec_to_coefs
           (mk_UWT "d8"%string None [2] [np_zeros [2]; np_zeros [2]])
           [1; 2; 3; 4]%float [vec [1; 2]; vec [3; 4]]%float).
  reflexivity.
Defined.

(** One band of two values, all operands of the shape [(2,)]. *)
Lemma multiplicative_update_run_witness :
  multiplicative_update [vec [3; 4]]%float [vec [1; 1]]%float
    [vec [2; 2]]%float 1%float [vec [1; 2]]%float
  = (mult_bands 1%float [vec [1; 2]]%float [vec [3; 4]]%float
       [vec [2; 2]]%float [vec [1; 1]]%float,
     Ok tt).
Proof.
  apply (multiplicative_update_run [2] 1%float [vec [1; 2]]%float
           [vec [3; 4]]%float [vec [1; 1]]%float [vec [2; 2]]%float).
  - reflexivity.
  - reflexivity.
  - repeat constructor.
Defined.

(** Two zeros updated with two ones, all of the shape [(2,)]. *)
Lemma update_operators_keep_shapes_witness :
  shapes (update [ones_R] 2%R [zeros_R]).1 = shapes [zeros_R]
  /\ shapes (multiplicative_update [ones_R] [ones_R] [ones_R] 2%R
               [zeros_R]).1 = shapes [zeros_R].
Proof.
  destruct (update_operators_keep_shapes [2] [zeros_R]) as [Hu Hm].
  split; [apply Hu|apply Hm]; repeat constructor.
Defined.

(** A step of 1 and a step of 2 with the update of two ones. *)
Lemma update_steps_accumulate_witness :
  (update [ones_R] 2%R (update [ones_R] 1%R [zeros_R]).1).1
  = (update [ones_R] (1 + 2)%R [zeros_R]).1.
Proof.
  apply (update_steps_accumulate 1%R 2%R [zeros_R] [ones_R]).
  repeat constructor.
Defined.

(** The update of two ones, at [alpha = -3], added to two zeros and to
    two ones. *)
Lemma update_norm_scales_witness :
  exists norm1 : R,
    (0 <= norm1)%R
    /\ (update [ones_R] (-3)%R [zeros_R]).2 = Ok (Rabs (-3) * norm1)%R
    /\ (update [ones_R] (-3)%R [ones_R]).2 = Ok (Rabs (-3) * norm1)%R.
Proof.
  destruct (update_norm_scales [ones_R]) as (norm1 & Hpos & Hall).
  exists norm1. split; [exact Hpos|].
  split; apply Hall; repeat constructor.
Defined.

(** The fixed threshold 1 on a detail band holding 3/2 and -1. *)
Lemma threshold_by_band_whole_band_exact_witness :
  threshold_by_band (fixed 0 1)%R [] None None
    ([mk_ndarray [2] [3 / 2; -1]%R] ++ [mk_ndarray [2] [7; 7]%R])
  = (imap (fun b cb =>
             if bool_decide (band_level b ∈ ([] : list nat)) then cb
             else arr_map (shrunk (band_threshold_of (fixed 0 1)%R None b cb))
                    cb)
          [mk_ndarray [2] [3 / 2; -1]%R] ++ [mk_ndarray [2] [7; 7]%R],
     Ok tt).
Proof.
  apply (threshold_by_band_whole_band_exact (fixed 0 1)%R [] None
           [mk_ndarray [2] [3 / 2; -1]%R] (mk_ndarray [2] [7; 7]%R)).
  - eexists. split; [reflexivity|]. simpl. lia.
  - discriminate.
  - intros A l p. simpl. lra.
Defined.

(** A signal of sixteen samples: one band derived. *)
Lemma modwt_transform_derives_bands_witness :
  (0 < Z.log2_up (Z.of_nat 16) - 3)%Z
  /\ modwt_transform (fun d _ _ => Ok [d]) (fun d _ _ => Ok [d])
       (fun d _ _ => Ok [d]) (mk_ndarray [16] (repeat 0%float 16))
       "d8"%string None
     = modwt_transform (fun d _ _ => Ok [d]) (fun d _ _ => Ok [d])
         (fun d _ _ => Ok [d]) (mk_ndarray [16] (repeat 0%float 16))
         "d8"%string (Some (Z.log2_up (Z.of_nat 16) - 3)%Z).
Proof.
  apply (modwt_transform_derives_bands
           (fun d _ _ => Ok [d]) (fun d _ _ => Ok [d]) (fun d _ _ => Ok [d])
           (mk_ndarray [16] (repeat 0%float 16)) "d8"%string 16).
  - reflexivity.
  - lia.
Defined.

(** A signal of two samples through engines that hand their input
    back. *)
Lemma inverse_follows_forward_witness :
  1 <= length (shape (vec [1; 2]%float)) <= 3
  /\ inverse_modwt_transform
       (fun _ _ => Raise ValueError) (fun _ _ => Raise IndexError)
       (fun _ _ => Raise OverflowError) [vec [1; 2]%float] "d8"%string
     = match length (shape (vec [1; 2]%float)) with
       | 1 => Raise ValueError
       | 2 => Raise IndexError
       | _ => Raise OverflowError
       end.
Proof.
  apply (inverse_follows_forward
           (fun d _ _ => Ok [d]) (fun d _ _ => Ok [d]) (fun d _ _ => Ok [d])
           (fun _ _ => Raise ValueError) (fun _ _ => Raise IndexError)
           (fun _ _ => Raise OverflowError)
           (vec [1; 2]%float) "d8"%string (Some 1%Z)
           [vec [1; 2]%float] (vec [1; 2]%float)).
  - reflexivity.
  - reflexivity.
  - reflexivity.
Defined.


(** The small bundle filled with threes. *)
Lemma mean_of_filled_witness :
  mean (set_coefs 3%R small_bundle_R).1 = Ok 3%R.
Proof.
  apply (mean_of_filled 3%R small_bundle_R).
  - repeat constructor.
  - vm_compute. lia.
Defined.


(** A handle on the shape [(2,)] with two probe arrays. *)
Lemma num_coefficients_is_vector_length_witness :
  exists v,
    coefs_to_vec [vec [1; 2]; vec [3; 4]]%float = Ok v
    /\ num_coefficients
         (mk_UWT "d8"%string None [2] [np_zeros [2]; np_zeros [2]])
       = Ok (length v).
Proof.
  apply (num_coefficients_is_vector_length
           (mk_UWT "d8"%string None [2] [np_zeros [2]; np_zeros [2]])
           (np_zeros [2]) [vec [1; 2]; vec [3; 4]]%float).
  - reflexivity.
  - reflexivity.
  - repeat constructor.
Defined.

(** One detail band of shape [(1, 1, 3)], masked along the last axis
    between the bounds 0 and 2. *)
Lemma low_pass_spatial_filter_masks_witness :
  (low_pass_spatial_filter 2 (0, 2)%Z 1
     ([mk_ndarray [1; 1; 3] [1; 2; 3]%float]
        ++ [mk_ndarray [1; 1; 3] [4; 5; 6]%float])).2 = Ok tt
  /\ exists a',
       (low_pass_spatial_filter 2 (0, 2)%Z 1
          ([mk_ndarray [1; 1; 3] [1; 2; 3]%float]
             ++ [mk_ndarray [1; 1; 3] [4; 5; 6]%float])).1 !! 0 = Some a'
       /\ shape a' = [1; 1; 3]
       /\ data a' !! 1 = Some 0%float.
Proof.
  destruct (low_pass_spatial_filter_masks 2 0 2 1
              [mk_ndarray [1; 1; 3] [1; 2; 3]%float]
              (mk_ndarray [1; 1; 3] [4; 5; 6]%float)) as [Hok Hel].
  - lia.
  - repeat constructor.
  - split; [exact Hok|].
    exact (Hel 0 (mk_ndarray [1; 1; 3] [1; 2; 3]%float) 1 2%float
             eq_refl eq_refl).
Defined.

(** The same band, masked twice. *)
Lemma low_pass_spatial_filter_idempotent_witness :
  (low_pass_spatial_filter 2 (0, 2)%Z 1
     (low_pass_spatial_filter 2 (0, 2)%Z 1
        ([mk_ndarray [1; 1; 3] [1; 2; 3]%float]
           ++ [mk_ndarray [1; 1; 3] [4; 5; 6]%float])).1).1
  = (low_pass_spatial_filter 2 (0, 2)%Z 1
       ([mk_ndarray [1; 1; 3] [1; 2; 3]%float]
          ++ [mk_ndarray [1; 1; 3] [4; 5; 6]%float])).1.
Proof.
  apply (low_pass_spatial_filter_idempotent 2 0 2 1
           [mk_ndarray [1; 1; 3] [1; 2; 3]%float]
           (mk_ndarray [1; 1; 3] [4; 5; 6]%float)).
  - lia.
  - repeat constructor.
Defined.

(** One detail band of shape [(1, 1, 3)], thresholded plane by plane
    along the last axis. *)
Lemma threshold_by_band_per_plane_witness :
  (threshold_by_band (fixed 0 1)%float [] (Some 2%Z) None
     ([mk_ndarray [1; 1; 3] [1; 2; 3]%float]
        ++ [mk_ndarray [1; 1; 3] [4; 5; 6]%float])).2 = Ok tt
  /\ exists a',
       (threshold_by_band (fixed 0 1)%float [] (Some 2%Z) None
          ([mk_ndarray [1; 1; 3] [1; 2; 3]%float]
             ++ [mk_ndarray [1; 1; 3] [4; 5; 6]%float])).1 !! 0 = Some a'
       /\ shape a' = [1; 1; 3]
       /\ data a' !! 1
          = Some (plane_steps (fixed 0 1)%float None 2 0
                    (mk_ndarray [1; 1; 3] [1; 2; 3]%float) 1 2%float).
Proof.
  apply (threshold_by_band_per_plane (fixed 0 1)%float [] None 2%Z
           [mk_ndarray [1; 1; 3] [1; 2; 3]%float]
           (mk_ndarray [1; 1; 3] [4; 5; 6]%float)
           0 (mk_ndarray [1; 1; 3] [1; 2; 3]%float) 1 2%float).
  - eexists. split; [reflexivity|]. simpl. lia.
  - lia.
  - repeat constructor.
  - reflexivity.
  - reflexivity.
  - intros Hin. inversion Hin.
  - vm_compute. lia.
Defined.

(** The same bundle with level 0 skipped. *)
Lemma threshold_by_band_per_plane_frame_witness :
  (threshold_by_band (fixed 0 1)%float [0] (Some 2%Z) None
     ([mk_ndarray [1; 1; 3] [1; 2; 3]%float]
        ++ [mk_ndarray [1; 1; 3] [4; 5; 6]%float])).1 !! 1
  = Some (mk_ndarray [1; 1; 3] [4; 5; 6]%float)
  /\ (threshold_by_band (fixed 0 1)%float [0] (Some 2%Z) None
        ([mk_ndarray [1; 1; 3] [1; 2; 3]%float]
           ++ [mk_ndarray [1; 1; 3] [4; 5; 6]%float])).1 !! 0
     = Some (mk_ndarray [1; 1; 3] [1; 2; 3]%float).
Proof.
  destruct (threshold_by_band_per_plane_frame (fixed 0 1)%float [0] None 2%Z
              [mk_ndarray [1; 1; 3] [1; 2; 3]%float]
              (mk_ndarray [1; 1; 3] [4; 5; 6]%float)) as [Hlow Hskip].
  - eexists. split; [reflexivity|]. simpl. lia.
  - lia.
  - repeat constructor.
  - split; [exact Hlow|].
    apply (Hskip 0 _ eq_refl). apply list_elem_of_here.
Defined.

(** The fixed center 0 and threshold 1, on the value 3 of the first
    plane. *)
Lemma threshold_by_band_per_plane_exact_witness :
  exists a',
    (threshold_by_band (fixed 0 1)%R [] (Some 2%Z) None
       ([mk_ndarray [1; 1; 3] [3; 1 / 2; -5]%R]
          ++ [mk_ndarray [1; 1; 3] [7; 7; 7]%R])).1 !! 0 = Some a'
    /\ data a' !! 0
       = Some (if decide (Rabs (3 - 0) < 1)%R then 0%R else shrunk 1 3).
Proof.
  apply (threshold_by_band_per_plane_exact (fixed 0 1)%R [] None 2%Z
           [mk_ndarray [1; 1; 3] [3; 1 / 2; -5]%R]
           (mk_ndarray [1; 1; 3] [7; 7; 7]%R)
           0 (mk_ndarray [1; 1; 3] [3; 1 / 2; -5]%R) 0 3%R).
  - eexists. split; [reflexivity|]. simpl. lia.
  - lia.
  - repeat constructor.
  - discriminate.
  - intros A l p. simpl. lra.
  - reflexivity.
  - reflexivity.
  - intros Hin. inversion Hin.
  - vm_compute. lia.
Defined.

(** Eight planes, plane 1, level 1: the shift is 4. *)
Lemma adjusted_plane_circular_witness :
  adjusted_plane 8 1 1 = ((Z.of_nat 1 - 2 ^ (Z.of_nat 1 + 1)) mod Z.of_nat 8)%Z
  /\ (0 <= adjusted_plane 8 1 1 < Z.of_nat 8)%Z.
Proof.
  apply (adjusted_plane_circular 8 1 1).
  - lia.
  - vm_compute. discriminate.
  - reflexivity.
Defined.

End MoreInstances.
